(** * Commit-message generation: GitExtensionService and CommitMessageProvider

    A shallow embedding of the commit-context assembly pipeline
    ([GitExtensionService]) and of the orchestrator that drives it
    ([CommitMessageProvider]), together with the properties the
    specification states about them.

    Conventions of the embedding.
    - A JavaScript string is a [string]; every [ascii] stands for one code
      unit (the git output and the prompts handled here are ASCII text).
    - A call that can throw returns a [result]; what is thrown is an
      [Error] with its message or another value; [try ... catch] is
      [try_catch].  State that survives a throw is threaded explicitly.
    - What the host supplies (the git process, the ignore-rule evaluator,
      the completion capability, [path], the prompt templates) is a field
      of an environment record, so that every theorem holds for all hosts. *)

From Stdlib Require Import Ascii String List Bool Arith Lia.
From stdpp Require Import base option list strings gmap pretty.

(* ================================================================== *)
(** * Part I: definitions                                              *)
(* ================================================================== *)

(** ** JavaScript string primitives used by the sources *)
Module JS.

(** White space in the sense of [String.prototype.trim], restricted to
    code units below 256: TAB, LF, VT, FF, CR, SPACE and NBSP. *)
Definition is_ws (c : ascii) : bool :=
  match c with
  | "009" | "010" | "011" | "012" | "013" | " " | "160" => true
  | _ => false
  end%char.

Fixpoint trimStart (s : string) : string :=
  match s with
  | EmptyString => EmptyString
  | String c t => if is_ws c then trimStart t else s
  end.

Fixpoint trimEnd (s : string) : string :=
  match s with
  | EmptyString => EmptyString
  | String c t =>
      match trimEnd t with
      | EmptyString => if is_ws c then EmptyString else String c EmptyString
      | t' => String c t'
      end
  end.

(** [s.trim()] *)
Definition trim (s : string) : string := trimEnd (trimStart s).

(** JavaScript truthiness of a string: the empty string is falsy. *)
Definition truthy (s : string) : bool :=
  match s with EmptyString => false | _ => true end.

(** [s.split(sep)] for a one-character separator; [split sep ""] is
    the one-element list [[""]], as in JavaScript. *)
Fixpoint split (sep : ascii) (s : string) : list string :=
  match s with
  | EmptyString => [EmptyString]
  | String c t =>
      if Ascii.eqb c sep then EmptyString :: split sep t
      else match split sep t with
           | [] => [String c EmptyString]
           | h :: r => String c h :: r
           end
  end.

(** [s.substring(a, b)] for [a <= b], and [s.substring(a)]. *)
Definition substring (a b : nat) (s : string) : string :=
  String.substring a (b - a) s.
Definition substringFrom (a : nat) (s : string) : string :=
  String.substring a (String.length s - a) s.

(** [xs.join(sep)] *)
Fixpoint join (sep : string) (xs : list string) : string :=
  match xs with
  | [] => EmptyString
  | [x] => x
  | x :: rest => x +:+ sep +:+ join sep rest
  end.

Definition LF : ascii := "010"%char.
Definition nl : string := String LF EmptyString.
Definition dquote : string := String (ascii_of_nat 34) EmptyString.

(** *** The regular expression [/```[a-z]*\n|```/g] *)

Definition is_lower (c : ascii) : bool :=
  (97 <=? nat_of_ascii c) && (nat_of_ascii c <=? 122).

Definition is_backtick (c : ascii) : bool := Ascii.eqb c "`"%char.

(** [\n] at the head of [r]: the number of code units matched. *)
Definition newline_len (r : string) : option nat :=
  match r with
  | String c _ => if Ascii.eqb c LF then Some 1 else None
  | EmptyString => None
  end.

(** [[a-z]*\n] at the head of [r], greedy with backtracking: one more
    letter is tried first, and when the rest then fails the star gives
    the letter back and [\n] is tried at [r] itself. *)
Fixpoint tag_newline_len (r : string) : option nat :=
  match r with
  | String c t =>
      if is_lower c then
        match tag_newline_len t with
        | Some n => Some (S n)
        | None => newline_len r
        end
      else newline_len r
  | EmptyString => newline_len r
  end.

(** The whole alternation at the head of [s]: the first alternative
    wins when it matches, else the bare fence. *)
Definition fence_len (s : string) : option nat :=
  match s with
  | String a (String b (String c r)) =>
      if is_backtick a && is_backtick b && is_backtick c then
        match tag_newline_len r with
        | Some n => Some (3 + n)
        | None => Some 3
        end
      else None
  | _ => None
  end.

(** [s.replace(/```[a-z]*\n|```/g, "")], scanning left to right.
    [skip] is the number of code units of the current match that are
    still to be consumed; at [skip = 0] a match is tried at the head. *)
Fixpoint replace_fences_from (skip : nat) (s : string) : string :=
  match s with
  | EmptyString => EmptyString
  | String c t =>
      match skip with
      | S n => replace_fences_from n t
      | O =>
          match fence_len s with
          | Some (S n) => replace_fences_from n t
          | _ => String c (replace_fences_from 0 t)
          end
      end
  end.

Definition replace_fences (s : string) : string := replace_fences_from 0 s.

(** *** The regular expression [/^["'`]|["'`]$/g] *)

Definition is_quote (c : ascii) : bool :=
  match c with
  | "034" | "'" | "`" => true
  | _ => false
  end%char.

Definition is_empty (s : string) : bool :=
  match s with EmptyString => true | _ => false end.

(** [s.replace(/^["'`]|["'`]$/g, "")]: without the [m] flag [^] holds
    at offset 0 only and [$] at the end of the input only. *)
Fixpoint replace_edge_quotes_from (at_start : bool) (s : string) : string :=
  match s with
  | EmptyString => EmptyString
  | String c t =>
      if is_quote c && (at_start || is_empty t)
      then replace_edge_quotes_from false t
      else String c (replace_edge_quotes_from false t)
  end.

Definition replace_edge_quotes (s : string) : string :=
  replace_edge_quotes_from true s.

(** *** Observations on strings used in the statements *)

(** Three backticks at the head of [s]. *)
Definition starts_fence (s : string) : bool :=
  match s with
  | String a (String b (String c _)) =>
      is_backtick a && is_backtick b && is_backtick c
  | _ => false
  end.

(** Three consecutive backticks somewhere in [s]. *)
Fixpoint has_fence (s : string) : bool :=
  match s with
  | EmptyString => false
  | String _ t => starts_fence s || has_fence t
  end.

Definition first_char (s : string) : option ascii :=
  match s with EmptyString => None | String c _ => Some c end.

Fixpoint last_char (s : string) : option ascii :=
  match s with
  | EmptyString => None
  | String c t => match last_char t with None => Some c | o => o end
  end.


(** [s.includes(t)] *)
Fixpoint includes (t s : string) : bool :=
  String.prefix t s
  || match s with
     | EmptyString => false
     | String _ rest => includes t rest
     end.

(** Only white space. *)
Fixpoint all_ws (s : string) : bool :=
  match s with
  | EmptyString => true
  | String c t => is_ws c && all_ws t
  end.

End JS.

(** ** Calls that can throw, console output *)

(** What a JavaScript call can throw: an instance of [Error], of which
    the embedding keeps the [message], or any other value.  A string
    where a thrown value is expected reads [new Error(message)]. *)
Inductive Thrown : Type :=
| JsError (message : string)
| NonError (printed : string).
Coercion JsError : string >-> Thrown.

(** [error instanceof Error ? error.message : "Unknown error occurred"] *)
Definition errorMessage (thrown : Thrown) : string :=
  match thrown with
  | JsError message => message
  | NonError _ => "Unknown error occurred"
  end.

(** The outcome of a JavaScript call: a value, or a thrown one. *)
Inductive result (A : Type) : Type :=
| Ok (a : A)
| Throw (thrown : Thrown).
Arguments Ok {A} a.
Arguments Throw {A} thrown.

(** What the service layer leaves behind besides its value. *)
Inductive Log : Type :=
| ConsoleError (text : string)
| ConsoleWarn (text : string)
| Progress (processedFiles total : nat).      (* onProgress(processed / total * 100) *)

(** What a run of the provider leaves behind.  Dialogs, progress
    reports and telemetry only notify the editor: the dialogs and the
    telemetry event are recorded, the progress reports are not, and
    all of them are taken to return normally. *)
Inductive Event : Type :=
| Logged (entry : Log)
| Constructed (id : nat) (workspaceRoot : string)  (* new GitExtensionService(root) *)
| Disposed (id : nat)                         (* ignoreController.dispose() of a service *)
| GatherChanges (id : nat) (staged : bool)    (* service.gatherChanges({ staged }) *)
| CommitContext (id : nat) (staged : bool)    (* service.getCommitContext(changes, { staged }) *)
| Completion (prompt : string)                (* singleCompletionHandler(config, prompt) *)
| ShowInformation (text : string)
| ShowError (text : string)
| SetInputBox (text : string)                 (* targetRepository.inputBox.value = message *)
| ClipboardWrite (text : string)
| Telemetry (name : string).

(** Effects of the stateless service layer: a result and the events
    emitted on the way.  A throw keeps the events emitted before it. *)
Definition Eff (A : Type) : Type := result A * list Log.

Module EffM.
Definition ret {A} (a : A) : Eff A := (Ok a, []).
Definition bind {A B} (m : Eff A) (k : A -> Eff B) : Eff B :=
  match m with
  | (Ok a, l) => let '(r, l') := k a in (r, l ++ l')
  | (Throw e, l) => (Throw e, l)
  end.
Definition emit (entry : Log) : Eff unit := (Ok tt, [entry]).
Definition lift {A} (r : result A) : Eff A := (r, []).
(** [try { m } catch (error) { h error }] *)
Definition try_catch {A} (m : Eff A) (h : Thrown -> Eff A) : Eff A :=
  match m with
  | (Ok a, l) => (Ok a, l)
  | (Throw e, l) => let '(r, l') := h e in (r, l ++ l')
  end.
End EffM.

Declare Scope eff_scope.
Delimit Scope eff_scope with eff.
Notation "'let*' x ':=' m 'in' k" := (EffM.bind m (fun x => k))
  (at level 10, x name, m at level 100, k at level 200, only parsing) : eff_scope.
Notation "'run' m 'in' k" := (EffM.bind m (fun _ => k))
  (at level 10, m at level 100, k at level 200, only parsing) : eff_scope.

(** ** GitExtensionService *)
Module GitExtensionService.

Record GitChange : Type := { filePath : string; status : string }.

(** The value [spawnSync] returns. *)
Record SpawnResult : Type := {
  error : option string;   (* set when the process could not be launched *)
  exit_status : option Z;  (* [null] when the process was ended by a signal *)
  stdout : string;
  stderr : string;
}.

(** [RooIgnoreController], an external collaborator. *)
Record RooIgnoreController : Type := {
  validateAccess : string -> result bool;
}.

(** What the host platform supplies to the service. *)
Class GitHost : Type := {
  spawnSync : string (* cwd *) -> list string (* args *) -> SpawnResult;
  path_join : string -> string -> string;
  path_relative : string -> string -> string;
  shouldExcludeLockFile : string -> bool;
  newRooIgnoreController : string -> RooIgnoreController;
}.

(** [GitProgressOptions]; the callback may throw. *)
Record GitProgressOptions : Type := {
  staged : bool;
  onProgress : option (nat -> nat -> result unit);
}.

(** The fields of an instance.  No method below returns a new
    [Service]: an instance keeps its [workspaceRoot]. *)
Record Service : Type := {
  workspaceRoot : string;
  ignoreController : option RooIgnoreController;
}.

Section WithHost.
Context `{GitHost}.
Local Open Scope eff_scope.
Import EffM.

Definition new (root : string) : Service :=
  {| workspaceRoot := root;
     ignoreController := Some (newRooIgnoreController root) |}.

Definition spawnGitWithArgs (this : Service) (args : list string)
  : result string :=
  let r := spawnSync (workspaceRoot this) args in
  match error r with
  | Some e => Throw e
  | None =>
      if negb (bool_decide (exit_status r = Some 0%Z))
      then Throw ("Git command failed with status "
                  +:+ from_option pretty "null" (exit_status r)
                  +:+ ": " +:+ stderr r)
      else Ok (stdout r)
  end.

Definition getStatus (this : Service) (staged : bool) : result string :=
  spawnGitWithArgs this
    (if staged then ["diff"; "--name-status"; "--cached"]
     else ["diff"; "--name-status"]).

Definition getSummary (this : Service) (staged : bool) : result string :=
  spawnGitWithArgs this
    (if staged then ["diff"; "--cached"; "--stat"] else ["diff"; "--stat"]).

Definition getGitDiff (this : Service) (filePath : string) (staged : bool)
  : result string :=
  spawnGitWithArgs this
    (if staged then ["diff"; "--cached"; "--"; filePath]
     else ["diff"; "--"; filePath]).

Definition getCurrentBranch (this : Service) : result string :=
  spawnGitWithArgs this ["branch"; "--show-current"].

Definition getRecentCommits (this : Service) (count : nat) : result string :=
  spawnGitWithArgs this ["log"; "--oneline"; "-" +:+ pretty count].

Definition getChangeStatusFromCode (code : string) : string :=
  if String.eqb code "M" then "Modified"
  else if String.eqb code "A" then "Added"
  else if String.eqb code "D" then "Deleted"
  else if String.eqb code "R" then "Renamed"
  else if String.eqb code "C" then "Copied"
  else if String.eqb code "U" then "Updated"
  else if String.eqb code "?" then "Untracked"
  else "Unknown".

(** The [for (const line of lines)] loop of [gatherChanges];
    [changes] is the array pushed to. *)
Fixpoint gatherChanges_loop (this : Service) (lines : list string)
    (changes : list GitChange) : list GitChange :=
  match lines with
  | [] => changes
  | line :: rest =>
      if String.length line <? 2 then gatherChanges_loop this rest changes
      else
        let statusCode := JS.trim (JS.substring 0 1 line) in
        let filePath := JS.trim (JS.substringFrom 1 line) in
        gatherChanges_loop this rest
          (changes ++ [ {| filePath := path_join (workspaceRoot this) filePath;
                           status := getChangeStatusFromCode statusCode |} ])
  end.

Definition changeType (staged : bool) : string :=
  if staged then "staged" else "unstaged".

Definition gatherChanges (this : Service) (options : GitProgressOptions)
  : Eff (list GitChange) :=
  try_catch
    (let* statusOutput := lift (getStatus this (staged options)) in
     if negb (JS.truthy (JS.trim statusOutput)) then ret []
     else
       let lines :=
         List.filter (fun line => JS.truthy (JS.trim line))
                     (JS.split JS.LF statusOutput) in
       ret (gatherChanges_loop this lines []))
    (fun e =>
       run emit (ConsoleError ("Error gathering " +:+ changeType (staged options)
                               +:+ " changes:")) in
       ret []).

(** [isValidFile] for one path of the diff loop. *)
Definition isValidFile (this : Service) (filePath : string) : Eff bool :=
  match ignoreController this with
  | Some controller =>
      try_catch
        (let relativeFilePath :=
           path_relative (workspaceRoot this)
                         (path_join (workspaceRoot this) filePath) in
         lift (validateAccess controller relativeFilePath))
        (fun e =>
           run emit (ConsoleWarn ("Error validating file access for " +:+ filePath
                                  +:+ ", allowing access:")) in
           ret true)
  | None => ret true
  end.

(** The [for (const filePath of files)] loop of [getDiffForChanges];
    [total] is [files.length] of the whole list. *)
Fixpoint getDiffForChanges_loop (this : Service) (options : GitProgressOptions)
    (total : nat) (files : list string) (processedFiles : nat)
    (diffs : list string) : Eff (list string) :=
  match files with
  | [] => ret diffs
  | filePath :: rest =>
      let* valid := isValidFile this filePath in
      let* diffs' := (if valid && negb (shouldExcludeLockFile filePath)
                 then let* diff := lift (getGitDiff this filePath (staged options)) in
                      ret (diffs ++ [JS.trim diff])
                 else ret diffs) in
      let processedFiles' := S processedFiles in
      run match onProgress options with
          | Some callback =>
              if 0 <? total
              then run lift (callback processedFiles' total) in
                   emit (Progress processedFiles' total)
              else ret tt
          | None => ret tt
          end in
      getDiffForChanges_loop this options total rest processedFiles' diffs'
  end.

(** The arguments of the names-only listing, and the [files] array
    computed from its output. *)
Definition nameOnlyArgs (staged : bool) : list string :=
  if staged then ["diff"; "--name-only"; "--cached"] else ["diff"; "--name-only"].

Definition listedFiles (out : string) : list string :=
  List.filter (fun line => 0 <? String.length line)
              (List.map JS.trim (JS.split JS.LF out)).

Definition getDiffForChanges (this : Service) (options : GitProgressOptions)
  : Eff string :=
  try_catch
    (let* out := lift (spawnGitWithArgs this (nameOnlyArgs (staged options))) in
     let files := listedFiles out in
     let* diffs := getDiffForChanges_loop this options (length files) files 0 [] in
     ret (JS.join JS.nl diffs))
    (fun e =>
       run emit (ConsoleError ("Error generating " +:+ changeType (staged options)
                               +:+ " diff:")) in
       ret "").

Definition ChangeType (staged : bool) : string :=
  if staged then "Staged" else "Unstaged".

Definition contextHeader : string :=
  "## Git Context for Commit Message Generation" +:+ JS.nl +:+ JS.nl.

Definition diffHeading (staged : bool) : string :=
  "### Full Diff of " +:+ ChangeType staged +:+ " Changes" +:+ JS.nl
  +:+ "```diff" +:+ JS.nl.

Definition diffSection (staged : bool) (diff : string) : string :=
  diffHeading staged +:+ diff +:+ JS.nl +:+ "```" +:+ JS.nl +:+ JS.nl.

Definition noDiffAvailable : string := "(No diff available)".
Definition noSummaryAvailable : string := "(No summary available)".

Definition summarySection (summary : string) : string :=
  "### Statistical Summary" +:+ JS.nl +:+ "```" +:+ JS.nl
  +:+ summary +:+ JS.nl +:+ "```" +:+ JS.nl +:+ JS.nl.

Definition repositoryContextHeading : string :=
  "### Repository Context" +:+ JS.nl +:+ JS.nl.

Definition currentBranchLabel : string := "**Current branch:**".
Definition recentCommitsLabel : string := "**Recent commits:**".

Definition branchSection (currentBranch : string) : string :=
  currentBranchLabel +:+ " `" +:+ JS.trim currentBranch +:+ "`"
  +:+ JS.nl +:+ JS.nl.

Definition commitsSection (recentCommits : string) : string :=
  recentCommitsLabel +:+ JS.nl +:+ "```" +:+ JS.nl
  +:+ recentCommits +:+ JS.nl +:+ "```" +:+ JS.nl.

Definition errorContext : string :=
  "## Error generating commit context" +:+ JS.nl +:+ JS.nl
  +:+ "Unable to gather complete context for commit message generation.".

Definition getCommitContext (this : Service) (changes : list GitChange)
    (options : GitProgressOptions) : Eff string :=
  try_catch
    (let context := contextHeader in
     let* context :=
       try_catch
         (let* diff := getDiffForChanges this options in
          ret (context +:+ diffSection (staged options) diff))
         (fun e => ret (context +:+ diffSection (staged options) noDiffAvailable)) in
     let* context :=
       try_catch
         (let* summary := lift (getSummary this (staged options)) in
          ret (context +:+ summarySection summary))
         (fun e => ret (context +:+ summarySection noSummaryAvailable)) in
     let context := context +:+ repositoryContextHeading in
     let* context :=
       try_catch
         (let* currentBranch := lift (getCurrentBranch this) in
          ret (if JS.truthy currentBranch
               then context +:+ branchSection currentBranch
               else context))
         (fun e => ret context) in
     let* context :=
       try_catch
         (let* recentCommits := lift (getRecentCommits this 5) in
          ret (if JS.truthy recentCommits
               then context +:+ commitsSection recentCommits
               else context))
         (fun e => ret context) in
     ret context)
    (fun e =>
       run emit (ConsoleError "Error generating commit context:") in
       ret errorContext).

End WithHost.

End GitExtensionService.

(** ** CommitMessageProvider *)
Module CommitMessageProvider.
Import GitExtensionService.

(** [VscGenerationRequest]: the repository's input box and root. *)
Record VscGenerationRequest : Type := {
  inputBox : nat;               (* which input box the message goes to *)
  rootUri : option string;      (* rootUri?.fsPath *)
}.

Record ProviderSettings : Type := {
  apiProvider : option string;
  profile : string;
}.

(** The [vscode.git] extension as [determineTargetRepository] sees it. *)
Record GitExtension : Type := {
  isActive : bool;
  getAPI : result (list VscGenerationRequest);   (* exports.getAPI(1).repositories *)
}.

(** The parameters handed to [supportPrompt.create]. *)
Record PromptParams : Type := {
  gitContext : string;
  customInstructions : string;
}.

(** The methods of the git service the provider calls.  The provider
    is stated against this interface; [GitExtensionService] is one
    implementation, a test double that throws is another. *)
Class GitServiceMethods : Type := {
  service_gatherChanges : Service -> GitProgressOptions -> Eff (list GitChange);
  service_getCommitContext :
    Service -> list GitChange -> GitProgressOptions -> Eff string;
}.

#[export] Instance GitExtensionService_methods `{GitHost} : GitServiceMethods := {|
  service_gatherChanges := gatherChanges;
  service_getCommitContext := getCommitContext;
|}.

(** What the host supplies to the provider: [ContextProxy],
    [ProviderSettingsManager], [supportPrompt], the completion
    capability and the editor. *)
Class ProviderHost : Type := {
  getProviderSettings : ProviderSettings;
  commitMessageApiConfigId : option string;
  listApiConfigMeta : list string;                     (* the ids *)
  customSupportPrompts : gmap string string;
  getProfile : string -> result ProviderSettings;
  getWorkspacePath : string;
  addCustomInstructions : string -> result string;
  supportPrompt_get : gmap string string -> string -> string;
  supportPrompt_create : string -> PromptParams -> gmap string string -> string;
  singleCompletionHandler : ProviderSettings -> string -> result string;
  vscode_git : result (option GitExtension);           (* getExtension("vscode.git") *)
  clipboard_writeText : string -> result unit;
  t : string -> option string -> string;               (* i18n: key, errorMessage *)
}.

(** A constructed [GitExtensionService] object: its identity and the
    root its constructor was given.  The class assigns
    [workspaceRoot] and [ignoreController] in the constructor only,
    so the fields of the object are those of [new root]. *)
Record Instance : Type := {
  id : nat;
  root : string;
}.

(** The fields of a [CommitMessageProvider]. *)
Record Provider : Type := {
  gitService : option Instance;
  previousGitContext : option string;
  previousCommitMessage : option string;
  targetRepository : option VscGenerationRequest;
  currentWorkspaceRoot : option string;
}.

(** The provider and the number of services constructed so far (the
    next object identity). *)
Record World : Type := {
  this : Provider;
  constructed : nat;
}.

(** The state right after [new CommitMessageProvider(...)]. *)
Definition initial : World :=
  {| this := {| gitService := None; previousGitContext := None;
                previousCommitMessage := None; targetRepository := None;
                currentWorkspaceRoot := None |};
     constructed := 0 |}.

(** Stateful computations of the provider.  A throw keeps the state
    and the events reached before it, as in JavaScript. *)
Definition M (A : Type) : Type := World -> result A * World * list Event.

(** How far a generation run gets. *)
Inductive Outcome : Type :=
| GatheringThrew (e : Thrown)
| NoChanges
| ContextThrew (e : Thrown)
| CompletionThrew (e : Thrown)
| Generated (gitContextString generatedMessage : string).

Module M.
Definition ret {A} (a : A) : M A := fun w => (Ok a, w, []).
Definition bind {A B} (m : M A) (k : A -> M B) : M B :=
  fun w =>
    match m w with
    | (Ok a, w1, l) => let '(r, w2, l') := k a w1 in (r, w2, l ++ l')
    | (Throw e, w1, l) => (Throw e, w1, l)
    end.
Definition throw {A} (e : Thrown) : M A := fun w => (Throw e, w, []).
Definition emit (ev : Event) : M unit := fun w => (Ok tt, w, [ev]).
Definition get : M Provider := fun w => (Ok (this w), w, []).
Definition put (p : Provider) : M unit :=
  fun w => (Ok tt, {| this := p; constructed := constructed w |}, []).
Definition liftE {A} (m : Eff A) : M A := fun w => (fst m, w, List.map Logged (snd m)).
Definition log (entry : Log) : M unit := emit (Logged entry).
Definition liftR {A} (r : result A) : M A := fun w => (r, w, []).
(** [try { m } catch (error) { h error }] *)
Definition try_catch {A} (m : M A) (h : Thrown -> M A) : M A :=
  fun w =>
    match m w with
    | (Ok a, w1, l) => (Ok a, w1, l)
    | (Throw e, w1, l) => let '(r, w2, l') := h e w1 in (r, w2, l ++ l')
    end.
End M.

Declare Scope prov_scope.
Delimit Scope prov_scope with prov.
Notation "'let*' x ':=' m 'in' k" := (M.bind m (fun x => k))
  (at level 10, x name, m at level 100, k at level 200, only parsing) : prov_scope.
Notation "'run' m 'in' k" := (M.bind m (fun _ => k))
  (at level 10, m at level 100, k at level 200, only parsing) : prov_scope.

(** *** extractCommitMessage *)
Definition extractCommitMessage (response : string) : string :=
  let cleaned := JS.trim response in
  let withoutCodeBlocks := JS.replace_fences cleaned in
  let withoutQuotes := JS.replace_edge_quotes withoutCodeBlocks in
  JS.trim withoutQuotes.

Section WithHost.
Context `{GitHost} `{GitServiceMethods} `{ProviderHost}.
Local Open Scope prov_scope.
Import M.

(** Field assignments [this.f = v]. *)
Definition set_gitService (v : option Instance) : M unit :=
  let* p := get in
  put {| gitService := v; previousGitContext := previousGitContext p;
         previousCommitMessage := previousCommitMessage p;
         targetRepository := targetRepository p;
         currentWorkspaceRoot := currentWorkspaceRoot p |}.
Definition set_previousGitContext (v : option string) : M unit :=
  let* p := get in
  put {| gitService := gitService p; previousGitContext := v;
         previousCommitMessage := previousCommitMessage p;
         targetRepository := targetRepository p;
         currentWorkspaceRoot := currentWorkspaceRoot p |}.
Definition set_previousCommitMessage (v : option string) : M unit :=
  let* p := get in
  put {| gitService := gitService p; previousGitContext := previousGitContext p;
         previousCommitMessage := v;
         targetRepository := targetRepository p;
         currentWorkspaceRoot := currentWorkspaceRoot p |}.
Definition set_targetRepository (v : option VscGenerationRequest) : M unit :=
  let* p := get in
  put {| gitService := gitService p; previousGitContext := previousGitContext p;
         previousCommitMessage := previousCommitMessage p;
         targetRepository := v;
         currentWorkspaceRoot := currentWorkspaceRoot p |}.
Definition set_currentWorkspaceRoot (v : option string) : M unit :=
  let* p := get in
  put {| gitService := gitService p; previousGitContext := previousGitContext p;
         previousCommitMessage := previousCommitMessage p;
         targetRepository := targetRepository p;
         currentWorkspaceRoot := v |}.

Definition service (i : Instance) : Service := GitExtensionService.new (root i).

(** [new GitExtensionService(workspacePath)]: a fresh object. *)
Definition construct_service (workspacePath : string) : M Instance :=
  fun w =>
    let i := {| id := constructed w; root := workspacePath |} in
    (Ok i, {| this := this w; constructed := S (constructed w) |},
     [Constructed (id i) workspacePath]).

(** [GitExtensionService.dispose]: [this.ignoreController?.dispose()].
    [Disposed] records that the evaluator of the object was released. *)
Definition dispose_service (i : Instance) : M unit :=
  match ignoreController (service i) with
  | Some _ => emit (Disposed (id i))
  | None => ret tt
  end.

Definition call_gatherChanges (i : Instance) (staged : bool)
  : M (list GitChange) :=
  run emit (GatherChanges (id i) staged) in
  liftE (service_gatherChanges (service i)
           {| staged := staged; onProgress := None |}).

Definition call_getCommitContext (i : Instance) (changes : list GitChange)
    (options : GitProgressOptions) : M string :=
  run emit (CommitContext (id i) (staged options)) in
  liftE (service_getCommitContext (service i) changes options).

Definition gatherGitChanges (workspacePath : string)
  : M (list GitChange * bool) :=
  let* p := get in
  run (if negb (bool_decide (currentWorkspaceRoot p = Some workspacePath))
       then
         run match gitService p with
             | Some old => dispose_service old
             | None => ret tt
             end in
         let* fresh := construct_service workspacePath in
         run set_gitService (Some fresh) in
         set_currentWorkspaceRoot (Some workspacePath)
       else ret tt) in
  let* p := get in
  match gitService p with
  | None => throw "Failed to initialize Git service"
  | Some svc =>
      let staged := true in
      let* changes := call_gatherChanges svc staged in
      if length changes =? 0 then
        let staged := false in
        let* changes := call_gatherChanges svc staged in
        ret (changes, staged)
      else ret (changes, staged)
  end.

(** [CommitMessageProvider.dispose] *)
Definition dispose : M unit :=
  let* p := get in
  run match gitService p with
      | Some svc => dispose_service svc
      | None => ret tt
      end in
  set_gitService None.

(** *** buildCommitMessagePrompt *)

Definition COMMIT_MESSAGE : string := "COMMIT_MESSAGE".

Definition differentMessagePrefix (previousCommitMessage : string) : string :=
  "# CRITICAL INSTRUCTION: GENERATE A COMPLETELY DIFFERENT COMMIT MESSAGE" +:+ JS.nl
  +:+ "The user has requested a new commit message for the same changes." +:+ JS.nl
  +:+ "The previous message was: " +:+ JS.dquote +:+ previousCommitMessage
  +:+ JS.dquote +:+ JS.nl
  +:+ "YOU MUST create a message that is COMPLETELY DIFFERENT by:" +:+ JS.nl
  +:+ "- Using entirely different wording and phrasing" +:+ JS.nl
  +:+ "- Focusing on different aspects of the changes" +:+ JS.nl
  +:+ "- Using a different structure or format if appropriate" +:+ JS.nl
  +:+ "- Possibly using a different type or scope if justifiable" +:+ JS.nl
  +:+ "This is the MOST IMPORTANT requirement for this task." +:+ JS.nl
  +:+ JS.nl.

Definition finalReminder (previousCommitMessage : string) : string :=
  JS.nl +:+ JS.nl
  +:+ "FINAL REMINDER: Your message MUST be COMPLETELY DIFFERENT from the previous message: "
  +:+ JS.dquote +:+ previousCommitMessage +:+ JS.dquote
  +:+ ". This is a critical requirement.".

(** A field inside a template literal: [null] prints as "null". *)
Definition interpolate (field : option string) : string :=
  match field with Some text => text | None => "null" end.

(** [this.previousGitContext === gitContextString &&
     this.previousCommitMessage !== null] *)
Definition shouldGenerateDifferentMessage (p : Provider)
    (gitContextString : string) : bool :=
  bool_decide (previousGitContext p = Some gitContextString)
  && bool_decide (previousCommitMessage p <> None).

Definition buildCommitMessagePrompt (gitContextString : string)
    (customSupportPrompts : gmap string string) : M string :=
  let workspacePath := getWorkspacePath in
  let* customInstructions :=
    (if JS.truthy workspacePath
     then liftR (addCustomInstructions workspacePath)
     else ret "") in
  let params := {| gitContext := gitContextString;
                   customInstructions := customInstructions |} in
  let* p := get in
  if shouldGenerateDifferentMessage p gitContextString then
    let previous := interpolate (previousCommitMessage p) in
    let baseTemplate := supportPrompt_get customSupportPrompts COMMIT_MESSAGE in
    let modifiedTemplate :=
      differentMessagePrefix previous +:+ baseTemplate
      +:+ finalReminder previous in
    ret (supportPrompt_create COMMIT_MESSAGE params
           (<[COMMIT_MESSAGE := modifiedTemplate]> customSupportPrompts))
  else
    ret (supportPrompt_create COMMIT_MESSAGE params customSupportPrompts).

(** *** callAIForCommitMessage *)

(** The configuration the completion is called with: the dedicated
    profile when its id is set, still listed, loadable and names a
    provider; the active configuration otherwise. *)
Definition configToUse : M ProviderSettings :=
  let apiConfiguration := getProviderSettings in
  match commitMessageApiConfigId with
  | Some configId =>
      if JS.truthy configId
         && existsb (fun id => String.eqb id configId) listApiConfigMeta
      then
        try_catch
          (let* providerSettings := liftR (getProfile configId) in
           match apiProvider providerSettings with
           | Some name => if JS.truthy name then ret providerSettings
                          else ret apiConfiguration
           | None => ret apiConfiguration
           end)
          (fun e =>
             run log (ConsoleWarn ("Failed to load commit message API config "
                                    +:+ configId +:+ ":")) in
             ret apiConfiguration)
      else ret apiConfiguration
  | None => ret apiConfiguration
  end.

Definition callAIForCommitMessage (gitContextString : string) : M string :=
  let* config := configToUse in
  let* prompt := buildCommitMessagePrompt gitContextString customSupportPrompts in
  run emit (Completion prompt) in
  let* response := liftR (singleCompletionHandler config prompt) in
  ret (extractCommitMessage response).

(** The progress animation around the call is a timer that only
    reports to the progress bar; [finally] clears it and rethrows.
    Result, state and the events kept here are those of the call. *)
Definition callAIForCommitMessageWithProgress (gitContextString : string)
  : M string :=
  callAIForCommitMessage gitContextString.

(** *** Target repository and delivery *)

Fixpoint find_repository (resourceUri : option string)
    (repositories : list VscGenerationRequest) : option VscGenerationRequest :=
  match repositories with
  | [] => None
  | repo :: rest =>
      match rootUri repo, resourceUri with
      | Some root, Some resource =>
          if String.prefix root resource then Some repo
          else find_repository resourceUri rest
      | _, _ => find_repository resourceUri rest
      end
  end.

Definition determineTargetRepository (resourceUri : option string)
  : M (option VscGenerationRequest) :=
  try_catch
    (let* gitExtension := liftR vscode_git in
     match gitExtension with
     | None => ret None
     | Some extension =>
         if negb (isActive extension) then ret None
         else
           let* repositories := liftR (getAPI extension) in
           match find_repository resourceUri repositories with
           | Some repo => ret (Some repo)
           | None => ret (head repositories)
           end
     end)
    (fun e =>
       run log (ConsoleError "Error determining target repository:") in
       ret None).

Definition copyToClipboardFallback (message : string) : M unit :=
  try_catch
    (run liftR (clipboard_writeText message) in
     run emit (ClipboardWrite message) in
     emit (ShowInformation
             "Commit message copied to clipboard. Paste it into the commit message field."))
    (fun clipboardError =>
       run log (ConsoleError "Error copying to clipboard:") in
       throw "Failed to set commit message").

Definition setCommitMessage (message : string) : M unit :=
  let* p := get in
  match targetRepository p with
  | Some _ => emit (SetInputBox message)
  | None => copyToClipboardFallback message
  end.

(** *** The two entry points *)

Definition COMMIT_MSG_GENERATED : string := "COMMIT_MSG_GENERATED".

(** [this.gitService!.getCommitContext(changes, options)] *)
Definition gitService_getCommitContext (changes : list GitChange)
    (options : GitProgressOptions) : M string :=
  let* p := get in
  match gitService p with
  | Some svc => call_getCommitContext svc changes options
  | None => throw "Cannot read properties of null (reading 'getCommitContext')"
  end.

(** [onDiffProgress] only reports to the progress bar. *)
Definition onDiffProgress (processedFiles total : nat) : result unit := Ok tt.

(** The callback run under [vscode.window.withProgress]. *)
Definition generateCommitMessageVsCode_task (workspaceRoot : string) : M unit :=
  try_catch
    (let* gathered := gatherGitChanges workspaceRoot in
     let '(changes, staged) := gathered in
     if length changes =? 0 then
       emit (ShowInformation (t "kilocode:commitMessage.noChanges" None))
     else
       run (if negb staged && (0 <? length changes)
            then emit (ShowInformation
                         (t "kilocode:commitMessage.generatingFromUnstaged" None))
            else ret tt) in
       let* gitContextString :=
         gitService_getCommitContext changes
           {| staged := staged; onProgress := Some onDiffProgress |} in
       let* generatedMessage :=
         callAIForCommitMessageWithProgress gitContextString in
       run set_previousGitContext (Some gitContextString) in
       run set_previousCommitMessage (Some generatedMessage) in
       run setCommitMessage generatedMessage in
       emit (Telemetry COMMIT_MSG_GENERATED))
    (fun error =>
       run emit (ShowError (t "kilocode:commitMessage.generationFailed"
                              (Some (errorMessage error)))) in
       log (ConsoleError "Error generating commit message:")).

Definition generateCommitMessageVsCode (vsRequest : option VscGenerationRequest)
  : M unit :=
  let* target := determineTargetRepository (vsRequest ≫= rootUri) in
  match target ≫= rootUri with
  | None => throw "Could not determine Git repository"
  | Some workspaceRoot =>
      run set_targetRepository target in
      generateCommitMessageVsCode_task workspaceRoot
  end.

(** The object [{ message, error? }] returned to an external caller. *)
Record ExternalResult : Type := {
  message : string;
  error : option string;
}.

Definition generateCommitMessageForExternal (workspacePath : string)
  : M ExternalResult :=
  try_catch
    (let* gathered := gatherGitChanges workspacePath in
     let '(changes, staged) := gathered in
     if length changes =? 0 then
       ret {| error := Some "No changes found to generate commit message";
              message := "" |}
     else
       let* gitContextString :=
         gitService_getCommitContext changes
           {| staged := staged; onProgress := None |} in
       let* generatedMessage := callAIForCommitMessage gitContextString in
       run set_previousGitContext (Some gitContextString) in
       run set_previousCommitMessage (Some generatedMessage) in
       run emit (Telemetry COMMIT_MSG_GENERATED) in
       ret {| message := generatedMessage; error := None |})
    (fun error =>
       ret {| error := Some (errorMessage error); message := "" |}).

(** *** Observations used in the statements *)

(** How far a generation run gets: the three steps in the order
    both entry points take them. *)
Definition run_outcome (onProgress : option (nat -> nat -> result unit))
    (workspacePath : string) (w : World) : Outcome :=
  match gatherGitChanges workspacePath w with
  | (Throw e, _, _) => GatheringThrew e
  | (Ok (changes, staged), w1, _) =>
      if length changes =? 0 then NoChanges
      else
        match gitService_getCommitContext changes
                {| staged := staged; onProgress := onProgress |} w1 with
        | (Throw e, _, _) => ContextThrew e
        | (Ok gitContextString, w2, _) =>
            match callAIForCommitMessage gitContextString w2 with
            | (Throw e, _, _) => CompletionThrew e
            | (Ok generatedMessage, _, _) =>
                Generated gitContextString generatedMessage
            end
        end
  end.

(** The instance that serves a run for [workspacePath]: the one
    held when the path is the bound one, a fresh one otherwise. *)
Definition bound_service (w : World) (workspacePath : string)
  : option Instance :=
  if bool_decide (currentWorkspaceRoot (this w) = Some workspacePath)
  then gitService (this w)
  else Some {| id := constructed w; root := workspacePath |}.

(** The prompt [supportPrompt.create] builds for the commit message
    from [templates], once the custom instructions are loaded. *)
Definition createCommitPrompt (gitContextString : string)
    (templates : gmap string string) : result string :=
  match (if JS.truthy getWorkspacePath
         then addCustomInstructions getWorkspacePath else Ok "") with
  | Ok instructions =>
      Ok (supportPrompt_create COMMIT_MESSAGE
            {| gitContext := gitContextString;
               customInstructions := instructions |} templates)
  | Throw e => Throw e
  end.


End WithHost.

(** The provider once [gatherGitChanges] has bound its service. *)
Definition rebound (w : World) (workspacePath : string) : World :=
  if bool_decide (currentWorkspaceRoot (this w) = Some workspacePath) then w
  else {| this := {| gitService := Some {| id := constructed w; root := workspacePath |};
                     previousGitContext := previousGitContext (this w);
                     previousCommitMessage := previousCommitMessage (this w);
                     targetRepository := targetRepository (this w);
                     currentWorkspaceRoot := Some workspacePath |};
          constructed := S (constructed w) |}.

(** The events of that binding: the old service is disposed, then
    the new one is constructed. *)
Definition rebinding (w : World) (workspacePath : string) : list Event :=
  if bool_decide (currentWorkspaceRoot (this w) = Some workspacePath) then []
  else match gitService (this w) with
       | Some old => [Disposed (id old)]
       | None => []
       end ++ [Constructed (constructed w) workspacePath].

(** The provider with the two fields of the previous run assigned. *)
Definition with_previous (w : World) (gitContextString generatedMessage : string)
  : World :=
  {| this := {| gitService := gitService (this w);
                previousGitContext := Some gitContextString;
                previousCommitMessage := Some generatedMessage;
                targetRepository := targetRepository (this w);
                currentWorkspaceRoot := currentWorkspaceRoot (this w) |};
     constructed := constructed w |}.

(** The [staged] flags of the calls to [gatherChanges], in order. *)
Fixpoint gather_calls (l : list Event) : list bool :=
  match l with
  | [] => []
  | GatherChanges _ staged :: rest => staged :: gather_calls rest
  | _ :: rest => gather_calls rest
  end.

(** The constructions and disposals of services, in order. *)
Fixpoint lifecycle (l : list Event) : list Event :=
  match l with
  | [] => []
  | Constructed i r :: rest => Constructed i r :: lifecycle rest
  | Disposed i :: rest => Disposed i :: lifecycle rest
  | _ :: rest => lifecycle rest
  end.

(** The provider holds a service whenever it is bound to a root: the
    state of a provider in use, from its construction up to
    [dispose()]. *)
Definition in_use (w : World) : Prop :=
  currentWorkspaceRoot (this w) = None \/ is_Some (gitService (this w)).

(** The service held is an object constructed earlier, for the root
    the provider is bound to. *)
Definition well_bound (w : World) : Prop :=
  forall i, gitService (this w) = Some i ->
            id i < constructed w /\ currentWorkspaceRoot (this w) = Some (root i).

End CommitMessageProvider.

(** ** The specification's reading of message post-processing *)
Module MessageSpec.

Fixpoint drop (n : nat) (s : string) : string :=
  match n, s with
  | S n', String _ t => drop n' t
  | _, _ => s
  end.

(** One leading marker: three backticks, an optional tag, a line break. *)
Definition strip_leading_fence (s : string) : string :=
  match JS.fence_len s with
  | Some n => drop n s
  | None => s
  end.

(** One trailing marker: three backticks at the very end. *)
Definition strip_trailing_fence (s : string) : string :=
  let r := String.rev s in
  if JS.starts_fence r then String.rev (drop 3 r) else s.

(** One leading quote or backtick. *)
Definition drop_leading_quote (s : string) : string :=
  match s with
  | String c t => if JS.is_quote c then t else s
  | EmptyString => EmptyString
  end.

(** One trailing quote or backtick. *)
Fixpoint drop_trailing_quote (s : string) : string :=
  match s with
  | EmptyString => EmptyString
  | String c t =>
      if JS.is_empty t then (if JS.is_quote c then EmptyString else s)
      else String c (drop_trailing_quote t)
  end.

(** "trim; strip a single well-formed leading/trailing fenced-code-block
    marker (language tag optional) without removing interior
    triple-backtick text; strip one leading and one trailing
    quote/backtick character if present; trim again." *)
Definition extractCommitMessage_spec (response : string) : string :=
  JS.trim
    (drop_trailing_quote
       (drop_leading_quote
          (strip_trailing_fence (strip_leading_fence (JS.trim response))))).

(** "Already clean" in the words of the specification: trimmed and not
    wrapped in code-block markers, quotes or backticks, where a message
    is wrapped when it has such a mark at both of its ends. *)
Definition ends_fence (m : string) : bool := JS.starts_fence (String.rev m).

Definition quote_at_start (m : string) : bool :=
  match JS.first_char m with Some c => JS.is_quote c | None => false end.

Definition quote_at_end (m : string) : bool :=
  match JS.last_char m with Some c => JS.is_quote c | None => false end.

Definition wrapped (m : string) : bool :=
  (JS.starts_fence m && ends_fence m) || (quote_at_start m && quote_at_end m).

Definition already_clean (m : string) : Prop :=
  JS.trim m = m /\ wrapped m = false.

(** The messages on which the extraction is idempotent in the code:
    trimmed, and neither the first nor the last character is a quote
    or a backtick (so that no code-block marker stands at either end). *)
Definition clean (m : string) : Prop :=
  JS.trim m = m
  /\ (forall c, JS.first_char m = Some c -> JS.is_quote c = false)
  /\ (forall c, JS.last_char m = Some c -> JS.is_quote c = false).

(** A response whose body names a fence, a clean message that holds
    quote characters, and a message that ends with an empty string
    literal. *)
Definition fence_in_body : string := "docs: explain ``` fences".
Definition quoted_word_message : string :=
  "fix: keep 'staged' flag when the `diff` is empty".
Definition empty_literal_message : string := "fix: handle empty string ''".

(** The single and double quote characters of a text, in order. *)
Fixpoint plain_quotes (s : string) : list ascii :=
  match s with
  | EmptyString => []
  | String c t =>
      if JS.is_quote c && negb (JS.is_backtick c) then c :: plain_quotes t
      else plain_quotes t
  end.

(** The characters a code-block marker is made of, and the texts whose
    first [n] characters are of that kind. *)
Definition marker_char (c : ascii) : bool :=
  JS.is_backtick c || JS.is_lower c || Ascii.eqb c JS.LF.

Fixpoint marker_prefix (n : nat) (s : string) : Prop :=
  match n, s with
  | S n', String c t => marker_char c = true /\ marker_prefix n' t
  | _, _ => True
  end.

End MessageSpec.

(** ** The specification's reading of status parsing *)
Module StatusSpec.
Import GitExtensionService.

(** The fixed table; any other code is [Unknown]. *)
Definition statusTable : list (string * string) :=
  [ ("M", "Modified"); ("A", "Added"); ("D", "Deleted"); ("R", "Renamed");
    ("C", "Copied"); ("U", "Updated"); ("?", "Untracked") ].

Definition statusOf (code : string) : string :=
  match List.find (fun entry => String.eqb (fst entry) code) statusTable with
  | Some entry => snd entry
  | None => "Unknown"
  end.

Definition nonblank (line : string) : bool := negb (JS.all_ws line).
Definition long_enough (line : string) : bool := 2 <=? String.length line.

(** The one Change a line stands for: the first character trimmed is
    the status code, the remainder trimmed is the relative path. *)
Definition change_of_line `{GitHost} (root line : string) : GitChange :=
  {| filePath := path_join root (JS.trim (JS.substringFrom 1 line));
     status := statusOf (JS.trim (JS.substring 0 1 line)) |}.

(** One Change per non-blank line of at least two characters, in the
    order of the output. *)
Definition changes_of_status `{GitHost} (root statusOutput : string)
  : list GitChange :=
  List.map (change_of_line root)
    (List.filter long_enough
       (List.filter nonblank (JS.split JS.LF statusOutput))).

End StatusSpec.

(** ** The access filter with its fail-open policy made explicit *)
Module FilterSpec.
Import GitExtensionService.


Definition accessWarning (filePath : string) : Log :=
  ConsoleWarn ("Error validating file access for " +:+ filePath
               +:+ ", allowing access:").

Definition diffError (staged : bool) : Log :=
  ConsoleError ("Error generating " +:+ changeType staged +:+ " diff:").

End FilterSpec.

(** ** Hosts used to evaluate the service on concrete inputs *)
Module Hosts.
Import GitExtensionService.

Definition succeeded (out : string) : SpawnResult :=
  {| error := None; exit_status := Some 0%Z; stdout := out; stderr := "" |}.
Definition failed (code : Z) (err : string) : SpawnResult :=
  {| error := None; exit_status := Some code; stdout := ""; stderr := err |}.

Definition posix_join (a b : string) : string := a +:+ "/" +:+ b.
Definition posix_relative (from to : string) : string :=
  JS.substringFrom (S (String.length from)) to.

Definition args_eqb (a b : list string) : bool := bool_decide (a = b).

(** A repository outside of which git is run: every command exits
    with status 128. *)
Definition not_a_repository : GitHost := {|
  spawnSync _ _ := failed 128 "fatal: not a git repository";
  path_join := posix_join;
  path_relative := posix_relative;
  shouldExcludeLockFile _ := false;
  newRooIgnoreController _ := {| validateAccess _ := Ok true |};
|}.

(** Two staged files; the single-file diff of [b.ts] exits with
    status 1. *)
Definition two_files_spawn (args : list string) : SpawnResult :=
  if args_eqb args ["diff"; "--name-status"; "--cached"]
  then succeeded ("M file1.ts" +:+ JS.nl +:+ "A file2.ts" +:+ JS.nl)
  else if args_eqb args ["diff"; "--name-only"; "--cached"]
  then succeeded ("a.ts" +:+ JS.nl +:+ "b.ts" +:+ JS.nl)
  else if args_eqb args ["diff"; "--cached"; "--"; "a.ts"]
  then succeeded ("diff --git a/a.ts b/a.ts" +:+ JS.nl)
  else if args_eqb args ["diff"; "--cached"; "--"; "b.ts"]
  then failed 1 "fatal: bad revision"
  else succeeded "".

Definition two_files : GitHost := {|
  spawnSync _ := two_files_spawn;
  path_join := posix_join;
  path_relative := posix_relative;
  shouldExcludeLockFile _ := false;
  newRooIgnoreController _ := {| validateAccess _ := Ok true |};
|}.

(** The repository of [two_files] once a third file is staged. *)
Definition three_files_spawn (args : list string) : SpawnResult :=
  if args_eqb args ["diff"; "--name-status"; "--cached"]
  then succeeded ("M file1.ts" +:+ JS.nl +:+ "A file2.ts" +:+ JS.nl
                  +:+ "D file3.ts" +:+ JS.nl)
  else if args_eqb args ["diff"; "--cached"; "--stat"]
  then succeeded (" 3 files changed" +:+ JS.nl)
  else two_files_spawn args.

Definition three_files : GitHost := {|
  spawnSync _ := three_files_spawn;
  path_join := posix_join;
  path_relative := posix_relative;
  shouldExcludeLockFile _ := false;
  newRooIgnoreController _ := {| validateAccess _ := Ok true |};
|}.

(** Two staged files whose diffs are available; the ignore rules
    cannot be evaluated for [a.ts] and deny [b.ts]. *)
Definition unreadable_rules_spawn (args : list string) : SpawnResult :=
  if args_eqb args ["diff"; "--name-only"; "--cached"]
  then succeeded ("a.ts" +:+ JS.nl +:+ "b.ts" +:+ JS.nl)
  else if args_eqb args ["diff"; "--cached"; "--"; "a.ts"]
  then succeeded ("diff --git a/a.ts b/a.ts" +:+ JS.nl)
  else if args_eqb args ["diff"; "--cached"; "--"; "b.ts"]
  then succeeded ("diff --git a/b.ts b/b.ts" +:+ JS.nl)
  else succeeded "".

Definition unreadable_rules_controller : RooIgnoreController :=
  {| validateAccess p := if String.eqb p "a.ts" then Throw "ignore rules unreadable"
                         else Ok false |}.

Definition unreadable_rules : GitHost := {|
  spawnSync _ := unreadable_rules_spawn;
  path_join := posix_join;
  path_relative := posix_relative;
  shouldExcludeLockFile _ := false;
  newRooIgnoreController _ := unreadable_rules_controller;
|}.

Definition repo_root : string := "/repo".
Definition staged_only : GitProgressOptions :=
  {| staged := true; onProgress := None |}.

End Hosts.

(** ** A host and provider states used to evaluate the provider *)
Module ProviderHosts.
Import GitExtensionService CommitMessageProvider.

Definition base_template : string := "Write a commit message for: ".

(** A host without a dedicated profile, whose [supportPrompt.create]
    puts the context behind the template. *)
Definition plain_host : ProviderHost := {|
  getProviderSettings := {| apiProvider := Some "kilocode"; profile := "default" |};
  commitMessageApiConfigId := None;
  listApiConfigMeta := [];
  customSupportPrompts := ∅;
  getProfile _ := Throw "no such profile";
  getWorkspacePath := "/repo";
  addCustomInstructions _ := Ok "";
  supportPrompt_get templates type := default base_template (templates !! type);
  supportPrompt_create type params templates :=
    default base_template (templates !! type) +:+ gitContext params;
  singleCompletionHandler _ _ := Ok "feat: add new feature";
  vscode_git := Ok None;
  clipboard_writeText _ := Ok tt;
  t key _ := key;
|}.


(** A host whose completion capability rejects with a value that is no
    [Error]. *)
Definition rejecting_host : ProviderHost := {|
  getProviderSettings := {| apiProvider := Some "kilocode"; profile := "default" |};
  commitMessageApiConfigId := None;
  listApiConfigMeta := [];
  customSupportPrompts := ∅;
  getProfile _ := Throw "no such profile";
  getWorkspacePath := "/repo";
  addCustomInstructions _ := Ok "";
  supportPrompt_get templates type := default base_template (templates !! type);
  supportPrompt_create type params templates :=
    default base_template (templates !! type) +:+ gitContext params;
  singleCompletionHandler _ _ := Throw (NonError "rate limited");
  vscode_git := Ok None;
  clipboard_writeText _ := Ok tt;
  t key _ := key;
|}.

(** A provider bound to [/repo] that has generated a message for the
    document [Modified file1.ts]. *)
Definition after_one_run : World :=
  {| this := {| gitService := Some {| id := 0; root := "/repo" |};
                previousGitContext := Some "Modified file1.ts";
                previousCommitMessage := Some "feat: add new feature";
                targetRepository := None;
                currentWorkspaceRoot := Some "/repo" |};
     constructed := 1 |}.

(** The same provider after [dispose()]. *)
Definition disposed : World :=
  {| this := {| gitService := None;
                previousGitContext := Some "Modified file1.ts";
                previousCommitMessage := Some "feat: add new feature";
                targetRepository := None;
                currentWorkspaceRoot := Some "/repo" |};
     constructed := 1 |}.

End ProviderHosts.

(** ** Observations on the diff section, the document and the parser *)
Module ServiceSpec.
Import GitExtensionService.

(** The statuses [getChangeStatusFromCode] can return, and the codes it
    recognises. *)
Definition statuses : list string :=
  ["Modified"; "Added"; "Deleted"; "Renamed"; "Copied"; "Updated";
   "Untracked"; "Unknown"].

Definition statusCodes : list string := ["M"; "A"; "D"; "R"; "C"; "U"; "?"].

(** The progress reported to [onProgress], in order. *)
Fixpoint progress_reports (l : list Log) : list (nat * nat) :=
  match l with
  | [] => []
  | Progress processedFiles total :: rest =>
      (processedFiles, total) :: progress_reports rest
  | _ :: rest => progress_reports rest
  end.

Section WithHost.
Context `{GitHost}.

(** What the access filter answers for a path: the evaluator's answer,
    "allowed" when it throws or when there is no evaluator. *)
Definition allowed (this : Service) (filePath : string) : bool :=
  match ignoreController this with
  | Some controller =>
      match validateAccess controller
              (path_relative (workspaceRoot this)
                 (path_join (workspaceRoot this) filePath)) with
      | Ok answer => answer
      | Throw _ => true
      end
  | None => true
  end.

(** The files whose diff goes into the diff section. *)
Definition included (this : Service) (filePath : string) : bool :=
  allowed this filePath && negb (shouldExcludeLockFile filePath).

(** The entry of a file in the diff section. *)
Definition diffText (this : Service) (staged : bool) (filePath : string) : string :=
  match getGitDiff this filePath staged with
  | Ok diff => JS.trim diff
  | Throw _ => ""
  end.

(** The reports of a loop that starts after [processedFiles] files. *)
Definition reports_from (options : GitProgressOptions) (total : nat)
    (processedFiles count : nat) : list (nat * nat) :=
  match onProgress options with
  | Some _ =>
      if 0 <? total
      then List.map (fun i => (i, total)) (seq (S processedFiles) count)
      else []
  | None => []
  end.

(** A build request whose progress callback only records. *)
Definition staged_with_progress : GitProgressOptions :=
  {| staged := true; onProgress := Some (fun _ _ => Ok tt) |}.

(** The arguments of the status query. *)
Definition statusArgs (staged : bool) : list string :=
  if staged then ["diff"; "--name-status"; "--cached"] else ["diff"; "--name-status"].

End WithHost.
End ServiceSpec.

(** ** Observations on the provider, and the external command *)
Module ProviderSpec.
Import GitExtensionService CommitMessageProvider.

(** The texts delivered to a sink (input box or clipboard), in order. *)
Fixpoint deliveries (l : list Event) : list string :=
  match l with
  | [] => []
  | SetInputBox text :: rest => text :: deliveries rest
  | ClipboardWrite text :: rest => text :: deliveries rest
  | _ :: rest => deliveries rest
  end.

(** The prompts handed to the completion capability, in order. *)
Fixpoint completions (l : list Event) : list string :=
  match l with
  | [] => []
  | Completion prompt :: rest => prompt :: completions rest
  | _ :: rest => completions rest
  end.

(** The error dialogs shown, in order. *)
Fixpoint shown_errors (l : list Event) : list string :=
  match l with
  | [] => []
  | ShowError text :: rest => text :: shown_errors rest
  | _ :: rest => shown_errors rest
  end.

(** Events that neither deliver, nor show an error, nor call the
    completion. *)
Definition silent (l : list Event) : Prop :=
  deliveries l = [] /\ shown_errors l = [] /\ completions l = [].

(** [repo.rootUri && resourceUri?.fsPath.startsWith(repo.rootUri.fsPath)] *)
Definition matches_resource (resourceUri : option string)
    (repo : VscGenerationRequest) : bool :=
  match rootUri repo, resourceUri with
  | Some root, Some resource => String.prefix root resource
  | _, _ => false
  end.

(** A lower-case language tag. *)
Fixpoint all_lower (tag : string) : bool :=
  match tag with
  | EmptyString => true
  | String c rest => JS.is_lower c && all_lower rest
  end.

(** The values a command can be called with, as far as
    [WorkspacePathSchema] tells them apart. *)
#[warnings="-register-all"]
Inductive JsValue : Type :=
| JsString (s : string)
| JsArray (items : list JsValue)
| JsOther.

Section WithHost.
Context `{GitHost} `{GitServiceMethods} `{ProviderHost}.
Local Open Scope prov_scope.
Import M.

(** The message of the [ZodError] raised for a rejected value. *)
Variable zodError : JsValue -> string.

(** [z.tuple([z.string().min(1, ...)]).parse(value)] *)
Definition WorkspacePathSchema_parse (value : JsValue) : result string :=
  match value with
  | JsArray [JsString workspacePath] =>
      if 1 <=? String.length workspacePath then Ok workspacePath
      else Throw (zodError value)
  | _ => Throw (zodError value)
  end.

(** The handler registered for
    [kilo-code.generateCommitMessageForExternal]. *)
Definition generateCommitMessageForExternal_command (args : list JsValue)
  : M ExternalResult :=
  let* workspacePath := liftR (WorkspacePathSchema_parse (nth 0 args JsOther)) in
  generateCommitMessageForExternal workspacePath.

End WithHost.
End ProviderSpec.

(* ================================================================== *)
(** * Part II: properties                                              *)
(* ================================================================== *)

(** ** Facts about the string primitives *)
Module JSFacts.
Import JS MessageSpec.

#[local] Arguments is_ws : simpl never.
#[local] Arguments is_quote : simpl never.
#[local] Arguments is_lower : simpl never.
#[local] Arguments is_backtick : simpl never.

(** *** Concatenation *)

Lemma append_cons x (a b : string) : String x a +:+ b = String x (a +:+ b).
Proof. reflexivity. Qed.

Lemma append_assoc (a b c : string) : (a +:+ b) +:+ c = a +:+ (b +:+ c).
Proof. induction a as [|x a IH]; [done|]. by rewrite !append_cons, IH. Qed.

Lemma append_nil_r (a : string) : a +:+ "" = a.
Proof. induction a as [|x a IH]; [done|]. by rewrite append_cons, IH. Qed.

Lemma backtick_is_quote c : is_backtick c = true -> is_quote c = true.
Proof.
  unfold is_backtick. intros E. apply Ascii.eqb_eq in E. subst. reflexivity.
Qed.

Lemma backtick_not_ws c : is_backtick c = true -> is_ws c = false.
Proof.
  unfold is_backtick. intros E. apply Ascii.eqb_eq in E. subst. reflexivity.
Qed.

Lemma LF_is_ws c : Ascii.eqb c LF = true -> is_ws c = true.
Proof. intros E. apply Ascii.eqb_eq in E. subst. reflexivity. Qed.

(** *** The fence expression *)

Lemma fence_len_starts s :
  fence_len s = None <-> starts_fence s = false.
Proof.
  destruct s as [|a [|b [|c r]]]; simpl; try tauto.
  destruct (is_backtick a && is_backtick b && is_backtick c); simpl.
  - destruct (tag_newline_len r); split; discriminate.
  - tauto.
Qed.

Lemma fence_len_pos s n : fence_len s = Some n -> 3 <= n.
Proof.
  destruct s as [|a [|b [|c r]]]; simpl; try discriminate.
  destruct (is_backtick a && is_backtick b && is_backtick c); try discriminate.
  destruct (tag_newline_len r); intros [= <-]; lia.
Qed.

Lemma replace_fences_from_0_no_match c t :
  starts_fence (String c t) = false ->
  replace_fences_from 0 (String c t) = String c (replace_fences_from 0 t).
Proof.
  intros E. apply fence_len_starts in E.
  cbn [replace_fences_from]. rewrite E. reflexivity.
Qed.

Lemma starts_fence_not_backtick c t :
  is_backtick c = false -> starts_fence (String c t) = false.
Proof. intros E. destruct t as [|b [|d r]]; simpl; rewrite ?E; reflexivity. Qed.

(** A kept character is never the first of three backticks in the
    output: what follows it starts no match either. *)
Lemma starts_fence_kept c t :
  starts_fence (String c t) = false ->
  starts_fence (String c (replace_fences_from 0 t)) = false.
Proof.
  intros E.
  destruct (is_backtick c) eqn:Ec; [|by apply starts_fence_not_backtick].
  destruct t as [|b t']; [reflexivity|].
  destruct (is_backtick b) eqn:Eb.
  - destruct t' as [|d t'']; [reflexivity|].
    assert (is_backtick d = false) as Ed.
    { simpl in E. by rewrite Ec, Eb in E. }
    rewrite replace_fences_from_0_no_match.
    2:{ destruct t'' as [|x y]; simpl; rewrite ?Ed, ?andb_false_r; reflexivity. }
    rewrite replace_fences_from_0_no_match
      by (by apply starts_fence_not_backtick).
    simpl. rewrite Ed, !andb_false_r. reflexivity.
  - rewrite replace_fences_from_0_no_match
      by (by apply starts_fence_not_backtick).
    destruct (replace_fences_from 0 t'); simpl; rewrite ?Eb, ?andb_false_r; reflexivity.
Qed.

Lemma replace_fences_from_no_fence s :
  forall skip, has_fence (replace_fences_from skip s) = false.
Proof.
  induction s as [|c t IH]; intros skip; [reflexivity|].
  cbn [replace_fences_from].
  destruct skip as [|n]; [|apply IH].
  destruct (fence_len (String c t)) as [[|n]|] eqn:E.
  - apply fence_len_pos in E. lia.
  - apply IH.
  - apply fence_len_starts in E.
    cbn [has_fence]. rewrite IH, orb_false_r. by apply starts_fence_kept.
Qed.

Lemma replace_fences_no_fence s : has_fence (replace_fences s) = false.
Proof. apply replace_fences_from_no_fence. Qed.

Lemma replace_fences_id s : has_fence s = false -> replace_fences s = s.
Proof.
  unfold replace_fences. induction s as [|c t IH]; [reflexivity|].
  cbn [has_fence]. intros [E1 E2]%orb_false_elim.
  rewrite replace_fences_from_0_no_match by done. by rewrite IH.
Qed.

Lemma replace_fences_idem s : replace_fences (replace_fences s) = replace_fences s.
Proof. apply replace_fences_id, replace_fences_no_fence. Qed.

(** *** Trimming *)

Lemma trimEnd_empty s : trimEnd s = EmptyString -> forall c, last_char s = Some c -> is_ws c = true.
Proof.
  induction s as [|a t IH]; [discriminate|].
  cbn [trimEnd last_char]. destruct (trimEnd t) eqn:Et; [|discriminate].
  destruct (is_ws a) eqn:Ea; [|discriminate].
  intros _ c. destruct (last_char t) eqn:El.
  - intros [= <-]. by apply IH.
  - by intros [= <-].
Qed.

Lemma trimEnd_id s :
  (forall c, last_char s = Some c -> is_ws c = false) -> trimEnd s = s.
Proof.
  induction s as [|a t IH]; [reflexivity|].
  cbn [trimEnd last_char]. intros Hl.
  destruct t as [|b t'].
  - simpl. rewrite (Hl a); reflexivity.
  - assert (trimEnd (String b t') = String b t') as ->; [|reflexivity].
    apply IH. intros c Hc. apply Hl. by rewrite Hc.
Qed.

Lemma trimEnd_last s c :
  last_char (trimEnd s) = Some c -> is_ws c = false.
Proof.
  revert c. induction s as [|a t IH]; [discriminate|].
  intros c. cbn [trimEnd]. destruct (trimEnd t) as [|b t'] eqn:Et.
  - destruct (is_ws a) eqn:Ea; [discriminate|]. by intros [= <-].
  - cbn [last_char] in *. destruct (last_char t') eqn:El.
    + intros [= <-]. by apply IH.
    + intros [= <-]. by apply IH.
Qed.

Lemma trimEnd_first s c :
  first_char s = Some c -> is_ws c = false -> first_char (trimEnd s) = Some c.
Proof.
  destruct s as [|a t]; [discriminate|]. intros [= ->] Hc.
  cbn [trimEnd]. destruct (trimEnd t); [rewrite Hc|]; reflexivity.
Qed.

Lemma trimStart_first s c :
  first_char (trimStart s) = Some c -> is_ws c = false.
Proof.
  induction s as [|a t IH]; [discriminate|].
  cbn [trimStart]. destruct (is_ws a) eqn:Ea; [exact IH|]. by intros [= <-].
Qed.

Lemma trimStart_id s :
  (forall c, first_char s = Some c -> is_ws c = false) -> trimStart s = s.
Proof.
  destruct s as [|a t]; [reflexivity|]. intros Hf.
  cbn [trimStart]. by rewrite (Hf a).
Qed.

Lemma trim_first s c : first_char (trim s) = Some c -> is_ws c = false.
Proof.
  unfold trim. intros Hc.
  destruct (trimStart s) as [|a t] eqn:Es; [discriminate|].
  assert (is_ws a = false) as Ha by (apply (trimStart_first s); by rewrite Es).
  rewrite (trimEnd_first (String a t) a) in Hc by done. by injection Hc as <-.
Qed.

Lemma trim_last s c : last_char (trim s) = Some c -> is_ws c = false.
Proof. apply trimEnd_last. Qed.

(** A string is trimmed exactly when neither end is white space. *)
Lemma trim_id s :
  (forall c, first_char s = Some c -> is_ws c = false) ->
  (forall c, last_char s = Some c -> is_ws c = false) ->
  trim s = s.
Proof. intros Hf Hl. unfold trim. rewrite trimStart_id by done. by apply trimEnd_id. Qed.

Lemma trim_idem s : trim (trim s) = trim s.
Proof. apply trim_id; [apply trim_first | apply trim_last]. Qed.

Lemma trimmed_ends s :
  trim s = s ->
  (forall c, first_char s = Some c -> is_ws c = false)
  /\ (forall c, last_char s = Some c -> is_ws c = false).
Proof. intros <-. split; [apply trim_first | apply trim_last]. Qed.

(** Removing characters at the ends brings in no fence. *)
Lemma has_fence_tail c t : has_fence (String c t) = false -> has_fence t = false.
Proof. cbn [has_fence]. by intros [_ ?]%orb_false_elim. Qed.

Lemma has_fence_trimStart s : has_fence s = false -> has_fence (trimStart s) = false.
Proof.
  induction s as [|a t IH]; [done|]. intros Hs. cbn [trimStart].
  destruct (is_ws a); [|done]. by apply IH, (has_fence_tail a).
Qed.

Lemma starts_fence_ws a t : is_ws a = true -> starts_fence (String a t) = false.
Proof.
  intros Ha. apply starts_fence_not_backtick.
  destruct (is_backtick a) eqn:E; [|done].
  apply backtick_not_ws in E. congruence.
Qed.

Lemma has_fence_trimEnd s : has_fence s = false -> has_fence (trimEnd s) = false.
Proof.
  induction s as [|a t IH]; [done|].
  cbn [has_fence]. intros [H1 H2]%orb_false_elim. specialize (IH H2).
  cbn [trimEnd]. destruct (trimEnd t) as [|b t'] eqn:Et.
  - by destruct (is_ws a).
  - cbn [has_fence] in *. rewrite IH, orb_false_r.
    (* the first three characters of the trimmed string are those of [s] *)
    destruct t as [|b0 t0]; [discriminate|].
    cbn [trimEnd] in Et. destruct (trimEnd t0) as [|d t''] eqn:Et0.
    + destruct (is_ws b0); [discriminate|]. by injection Et as <- <-.
    + injection Et as <- <-.
      destruct t0 as [|d0 t1]; [discriminate|].
      cbn [trimEnd] in Et0. destruct (trimEnd t1).
      * destruct (is_ws d0); [discriminate|]. by injection Et0 as <- <-.
      * by injection Et0 as <- <-.
Qed.

Lemma has_fence_trim s : has_fence s = false -> has_fence (trim s) = false.
Proof. intros Hs. by apply has_fence_trimEnd, has_fence_trimStart. Qed.

(** *** The edge-quote expression *)

Lemma replace_edge_quotes_inner s :
  replace_edge_quotes_from false s = drop_trailing_quote s.
Proof.
  induction s as [|c t IH]; [reflexivity|].
  cbn [replace_edge_quotes_from drop_trailing_quote]. rewrite IH.
  rewrite orb_false_l.
  destruct t as [|b t']; simpl; destruct (is_quote c); reflexivity.
Qed.

(** The scan removes the first character when it is a quote, and the
    last one when it is a quote: at most one at each end. *)
Lemma replace_edge_quotes_ends s :
  replace_edge_quotes s = drop_trailing_quote (drop_leading_quote s).
Proof.
  unfold replace_edge_quotes. destruct s as [|c t]; [reflexivity|].
  cbn [replace_edge_quotes_from drop_leading_quote]. rewrite orb_true_l, andb_true_r.
  rewrite replace_edge_quotes_inner.
  destruct (is_quote c) eqn:Ec; [reflexivity|].
  cbn [drop_trailing_quote]. rewrite Ec. by destruct t.
Qed.

Lemma drop_trailing_quote_id s :
  (forall c, last_char s = Some c -> is_quote c = false) ->
  drop_trailing_quote s = s.
Proof.
  induction s as [|a t IH]; [reflexivity|].
  cbn [drop_trailing_quote last_char]. intros Hl. destruct t as [|b t'].
  - simpl. by rewrite (Hl a).
  - cbn [is_empty]. f_equal. apply IH. intros c Hc. apply Hl. by rewrite Hc.
Qed.

Lemma replace_edge_quotes_id s :
  (forall c, first_char s = Some c -> is_quote c = false) ->
  (forall c, last_char s = Some c -> is_quote c = false) ->
  replace_edge_quotes s = s.
Proof.
  intros Hf Hl. rewrite replace_edge_quotes_ends.
  assert (drop_leading_quote s = s) as ->.
  { destruct s as [|a t]; [done|]. simpl. by rewrite (Hf a). }
  by apply drop_trailing_quote_id.
Qed.

Lemma has_fence_drop_leading_quote s :
  has_fence s = false -> has_fence (drop_leading_quote s) = false.
Proof.
  destruct s as [|a t]; [done|]. intros Hs. cbn [drop_leading_quote].
  destruct (is_quote a); [by apply (has_fence_tail a)|done].
Qed.

Lemma has_fence_drop_trailing_quote s :
  has_fence s = false -> has_fence (drop_trailing_quote s) = false.
Proof.
  induction s as [|a t IH]; [done|].
  cbn [has_fence]. intros [H1 H2]%orb_false_elim. specialize (IH H2).
  cbn [drop_trailing_quote]. destruct t as [|b t']; cbn [is_empty].
  - by destruct (is_quote a).
  - cbn [has_fence]. rewrite IH, orb_false_r.
    cbn [drop_trailing_quote]. destruct t' as [|d t'']; cbn [is_empty].
    + by destruct (is_quote b).
    + cbn [drop_trailing_quote]. destruct t'' as [|e t3]; cbn [is_empty].
      * destruct (is_quote d) eqn:Ed; [done|]. exact H1.
      * exact H1.
Qed.

(** *** What the fence expression cannot consume *)

Lemma length_last_char s : 0 < String.length s -> is_Some (last_char s).
Proof. destruct s as [|a t]; simpl; [lia|]. destruct (last_char t); eauto. Qed.

Lemma last_char_cons a t :
  0 < String.length t -> last_char (String a t) = last_char t.
Proof. intros [c Hc]%length_last_char. cbn [last_char]. by rewrite Hc. Qed.

(** A match of [[a-z]*\n] that reaches the end of the input ends in
    the line break. *)
Lemma tag_newline_len_spec r n :
  tag_newline_len r = Some n ->
  1 <= n <= String.length r
  /\ (n = String.length r -> exists c, last_char r = Some c /\ Ascii.eqb c LF = true).
Proof.
  revert n. induction r as [|c t IH]; intros n; [discriminate|].
  assert (newline_len (String c t) = Some n ->
          1 <= n <= String.length (String c t)
          /\ (n = String.length (String c t) ->
              exists d, last_char (String c t) = Some d /\ Ascii.eqb d LF = true)) as Hnl.
  { cbn [newline_len]. destruct (Ascii.eqb c LF) eqn:Ec; [|discriminate].
    intros [= <-]. simpl. split; [lia|]. intros Hlen.
    destruct t; [|simpl in Hlen; lia]. simpl. eauto. }
  cbn [tag_newline_len]. destruct (is_lower c); [|exact Hnl].
  destruct (tag_newline_len t) as [m|] eqn:Et; [|exact Hnl].
  intros [= <-]. destruct (IH m eq_refl) as [Hm Hend]. cbn [String.length]. split; [lia|].
  intros Hlen. destruct Hend as (d & Hd & Hlf); [lia|].
  exists d. split; [|done]. rewrite last_char_cons by lia. done.
Qed.

(** A match of the whole expression that reaches the end of the input
    ends in a backtick or a line break. *)
Lemma fence_len_spec s n :
  fence_len s = Some n ->
  n <= String.length s
  /\ (n = String.length s ->
      exists c, last_char s = Some c
                /\ (is_backtick c = true \/ Ascii.eqb c LF = true)).
Proof.
  destruct s as [|a [|b [|c r]]]; try discriminate.
  cbn [fence_len]. destruct (is_backtick a && is_backtick b && is_backtick c) eqn:E;
    [|discriminate].
  apply andb_prop in E as [_ Ec].
  destruct (tag_newline_len r) as [m|] eqn:Er.
  - intros [= <-]. destruct (tag_newline_len_spec r m Er) as [Hm Hend].
    cbn [String.length]. split; [lia|].
    intros Hlen. destruct Hend as (d & Hd & Hlf); [lia|].
    exists d. split; [|by right].
    rewrite !last_char_cons; cbn [String.length]; try lia. done.
  - intros [= <-]. simpl. split; [lia|]. intros Hlen.
    destruct r; [|simpl in Hlen; lia]. exists c. split; [done|by left].
Qed.

(** The last character survives the replacement when it is neither a
    backtick nor a line break. *)
Lemma replace_fences_from_last s : forall skip d,
  skip < String.length s ->
  last_char s = Some d -> is_backtick d = false -> Ascii.eqb d LF = false ->
  last_char (replace_fences_from skip s) = Some d.
Proof.
  induction s as [|c t IH]; intros skip d Hskip Hd Hb Hlf; [discriminate|].
  cbn [replace_fences_from]. destruct skip as [|n].
  - destruct (fence_len (String c t)) as [[|n]|] eqn:E.
    + apply fence_len_pos in E. lia.
    + destruct (fence_len_spec _ _ E) as [Hn Hend]. simpl in Hn.
      assert (S n <> String.length (String c t)) as Hne.
      { intros Heq. destruct (Hend Heq) as (x & Hx & [Hx1|Hx2]); congruence. }
      simpl in Hne. apply IH; [lia| |done..].
      rewrite last_char_cons in Hd by lia. done.
    + destruct t as [|b t']; [done|].
      rewrite last_char_cons in Hd by (simpl; lia).
      assert (last_char (replace_fences_from 0 (String b t')) = Some d) as Hr
        by (apply IH; [simpl; lia|done..]).
      cbn [last_char]. by rewrite Hr.
  - simpl in Hskip. apply IH; [lia| |done..].
    rewrite last_char_cons in Hd by lia. done.
Qed.

Lemma replace_fences_last s d :
  last_char s = Some d -> is_quote d = false -> is_ws d = false ->
  last_char (replace_fences s) = Some d.
Proof.
  intros Hd Hq Hw. apply replace_fences_from_last; [|done|..].
  - destruct s; [discriminate|simpl; lia].
  - destruct (is_backtick d) eqn:E; [|done]. apply backtick_is_quote in E. congruence.
  - destruct (Ascii.eqb d LF) eqn:E; [|done]. apply LF_is_ws in E. congruence.
Qed.

Lemma replace_fences_first s c :
  first_char s = Some c -> is_quote c = false ->
  first_char (replace_fences s) = Some c.
Proof.
  destruct s as [|a t]; [discriminate|]. intros [= ->] Hq.
  unfold replace_fences. rewrite replace_fences_from_0_no_match; [done|].
  apply starts_fence_not_backtick.
  destruct (is_backtick c) eqn:E; [|done]. apply backtick_is_quote in E. congruence.
Qed.

Lemma replace_fences_clean m : clean m -> clean (replace_fences m).
Proof.
  intros (Ht & Hf & Hl). destruct (trimmed_ends m Ht) as [Hfw Hlw].
  assert (forall c, first_char (replace_fences m) = Some c -> first_char m = Some c) as Hf'.
  { intros c. destruct (first_char m) as [a|] eqn:Ea.
    - rewrite (replace_fences_first m a) by eauto. done.
    - destruct m; [done|discriminate]. }
  assert (forall c, last_char (replace_fences m) = Some c -> last_char m = Some c) as Hl'.
  { intros c. destruct (last_char m) as [a|] eqn:Ea.
    - rewrite (replace_fences_last m a) by eauto. done.
    - destruct m as [|x y]; [done|]. simpl in Ea. destruct (last_char y); discriminate. }
  split; [|split].
  - apply trim_id; eauto.
  - eauto.
  - eauto.
Qed.

Lemma last_char_append a b :
  b <> EmptyString -> last_char (a +:+ b) = last_char b.
Proof.
  intros Hb. induction a as [|c t IH]; [done|].
  rewrite append_cons. cbn [last_char]. rewrite IH.
  destruct b as [|x y]; [done|]. cbn [last_char]. by destruct (last_char y).
Qed.

Lemma append_nonempty a b : b <> EmptyString -> a +:+ b <> EmptyString.
Proof. destruct a; [done|]. by rewrite append_cons. Qed.

Lemma first_char_append a b :
  a <> EmptyString -> first_char (a +:+ b) = first_char a.
Proof. by destruct a. Qed.

(** *** Placeholders [${...}] *)



End JSFacts.

(** ** Message post-processing *)
Module ExtractFacts.
Import JS MessageSpec JSFacts CommitMessageProvider.

(** On a clean message the extraction only removes fence markers. *)
Lemma extractCommitMessage_clean m :
  clean m -> extractCommitMessage m = replace_fences m.
Proof.
  intros Hm. unfold extractCommitMessage.
  destruct (replace_fences_clean m Hm) as (Ht & Hf & Hl).
  destruct Hm as (-> & _ & _).
  rewrite replace_edge_quotes_id by done. exact Ht.
Qed.

(** A clean message without a fence is returned as it is. *)
Lemma extractCommitMessage_fixpoint m :
  clean m -> has_fence m = false -> extractCommitMessage m = m.
Proof.
  intros Hm Hf. rewrite extractCommitMessage_clean by done.
  by apply replace_fences_id.
Qed.

Lemma extractCommitMessage_no_fence response :
  has_fence (extractCommitMessage response) = false.
Proof.
  unfold extractCommitMessage. rewrite replace_edge_quotes_ends.
  apply has_fence_trim, has_fence_drop_trailing_quote,
    has_fence_drop_leading_quote, replace_fences_no_fence.
Qed.

(** C6, as amended.  For every completion response,
    [extractCommitMessage] trims the response, removes every
    code-fence marker wherever it stands (three backticks followed by
    an optional lower-case tag and a line break, or three bare
    backticks), so that no triple backtick survives at the start, at
    the end or inside the message, while a text without triple
    backticks is left as it is by that step; it then strips at most
    one leading and one trailing quote or backtick character, and
    trims again. *)
Theorem extractCommitMessage_shape (response : string) :
  extractCommitMessage response
  = trim (drop_trailing_quote (drop_leading_quote (replace_fences (trim response))))
  /\ has_fence (replace_fences (trim response)) = false
  /\ (has_fence (trim response) = false ->
      replace_fences (trim response) = trim response)
  /\ has_fence (extractCommitMessage response) = false
  /\ trim (extractCommitMessage response) = extractCommitMessage response.
Proof.
  split; [|split; [|split; [|split]]].
  - unfold extractCommitMessage. by rewrite replace_edge_quotes_ends.
  - apply replace_fences_no_fence.
  - apply replace_fences_id.
  - apply extractCommitMessage_no_fence.
  - apply trim_idem.
Qed.

(** C6 as stated fails: an interior triple backtick is removed, where
    the specification's post-processing keeps it. *)
Lemma extractCommitMessage_interior_fence_removed :
  extractCommitMessage_spec fence_in_body = "docs: explain ``` fences"
  /\ extractCommitMessage fence_in_body = "docs: explain  fences"
  /\ extractCommitMessage fence_in_body <> extractCommitMessage_spec fence_in_body.
Proof. split; [reflexivity|split; [reflexivity|discriminate]]. Qed.

Lemma extractCommitMessage_shape_witness :
  has_fence (trim "feat: add parser") = false
  /\ replace_fences (trim "feat: add parser") = trim "feat: add parser".
Proof.
  split; [reflexivity|].
  refine (proj1 (proj2 (proj2 (extractCommitMessage_shape "feat: add parser"))) _).
  reflexivity.
Defined.

(** C7 as stated fails: a trimmed message that is not wrapped but ends
    with two quote characters loses one of them at each application. *)
Lemma extractCommitMessage_strips_again :
  already_clean empty_literal_message
  /\ extractCommitMessage empty_literal_message = "fix: handle empty string '"
  /\ extractCommitMessage (extractCommitMessage empty_literal_message)
     = "fix: handle empty string"
  /\ extractCommitMessage (extractCommitMessage empty_literal_message)
     <> extractCommitMessage empty_literal_message.
Proof.
  split; [split; reflexivity|]. split; [reflexivity|]. split; [reflexivity|].
  discriminate.
Qed.

(** The messages of the amended claim are among the already-clean ones. *)
Lemma clean_already_clean m : clean m -> already_clean m.
Proof.
  intros (Ht & Hf & _). split; [done|]. unfold wrapped, quote_at_start.
  destruct m as [|c t]; [done|]. cbn [first_char] in *.
  rewrite (Hf c eq_refl), andb_false_l, orb_false_r.
  apply andb_false_intro1, starts_fence_not_backtick.
  destruct (is_backtick c) eqn:E; [|done].
  apply backtick_is_quote in E. rewrite (Hf c eq_refl) in E. done.
Qed.

(** *** What the fence step leaves alone *)

Lemma marker_char_plain c :
  marker_char c = true -> is_quote c && negb (is_backtick c) = false.
Proof.
  unfold marker_char. destruct (is_backtick c) eqn:Eb; [by rewrite andb_false_r|].
  cbn [orb negb]. rewrite andb_true_r.
  destruct c as [[] [] [] [] [] [] [] []]; cbn; try done; by intros [=].
Qed.

Lemma marker_prefix_tag r : forall n,
  tag_newline_len r = Some n -> marker_prefix n r.
Proof.
  assert (forall n, newline_len r = Some n -> marker_prefix n r) as Hnl.
  { intros n. destruct r as [|c t]; [discriminate|]. cbn [newline_len].
    destruct (Ascii.eqb c LF) eqn:E; [|discriminate]. intros [= <-].
    cbn. split; [|done]. unfold marker_char. by rewrite E, orb_true_r. }
  revert Hnl. induction r as [|c t IH]; intros Hnl n; [by apply Hnl|].
  cbn [tag_newline_len]. destruct (is_lower c) eqn:El; [|by apply Hnl].
  destruct (tag_newline_len t) as [m|] eqn:Et; [|by apply Hnl].
  intros [= <-]. cbn. split.
  - unfold marker_char. by rewrite El, orb_true_r.
  - apply IH; [|done]. intros k. destruct t as [|d u]; [discriminate|].
    cbn [newline_len]. destruct (Ascii.eqb d LF) eqn:E; [|discriminate].
    intros [= <-]. cbn. split; [|done]. unfold marker_char. by rewrite E, orb_true_r.
Qed.

Lemma marker_prefix_fence s n : fence_len s = Some n -> marker_prefix n s.
Proof.
  destruct s as [|a [|b [|c r]]]; try discriminate. cbn [fence_len].
  destruct (is_backtick a && is_backtick b && is_backtick c) eqn:E; [|discriminate].
  apply andb_prop in E as [[Ea Eb]%andb_prop Ec].
  assert (forall k, marker_prefix k r ->
                    marker_prefix (3 + k) (String a (String b (String c r)))) as Hk.
  { intros k Hr. cbn. unfold marker_char. by rewrite Ea, Eb, Ec. }
  destruct (tag_newline_len r) as [m|] eqn:Er; intros [= <-].
  - by apply Hk, marker_prefix_tag.
  - by apply (Hk 0).
Qed.

(** The fence step removes no single or double quote. *)
Lemma replace_fences_from_plain_quotes s : forall skip,
  marker_prefix skip s ->
  plain_quotes (replace_fences_from skip s) = plain_quotes s.
Proof.
  induction s as [|c t IH]; intros skip Hskip; [done|].
  cbn [replace_fences_from]. destruct skip as [|n].
  - destruct (fence_len (String c t)) as [[|n]|] eqn:E.
    + cbn [plain_quotes]. by rewrite (IH 0).
    + destruct (marker_prefix_fence _ _ E) as [Hc Ht].
      cbn [plain_quotes]. rewrite (marker_char_plain c Hc). by apply IH.
    + cbn [plain_quotes]. by rewrite (IH 0).
  - destruct Hskip as [Hc Ht]. cbn [plain_quotes].
    rewrite (marker_char_plain c Hc). by apply IH.
Qed.

(** C7, as amended.  For every trimmed message that neither starts nor
    ends with a quote or backtick character (hence has no code-block
    marker at either end), applying [extractCommitMessage] twice
    yields the same string as applying it once.  The first
    application removes nothing but the code-block markers inside the
    message, and the second removes nothing: the single and double
    quote characters of the message are kept by both applications,
    and a message of this kind that holds no triple backtick comes
    back from both unchanged, backticks included. *)
Theorem extractCommitMessage_idempotent (m : string) :
  clean m ->
  extractCommitMessage (extractCommitMessage m) = extractCommitMessage m
  /\ extractCommitMessage m = replace_fences m
  /\ plain_quotes (extractCommitMessage m) = plain_quotes m
  /\ plain_quotes (extractCommitMessage (extractCommitMessage m)) = plain_quotes m
  /\ (has_fence m = false ->
      extractCommitMessage m = m
      /\ extractCommitMessage (extractCommitMessage m) = m).
Proof.
  intros Hm.
  assert (extractCommitMessage m = replace_fences m) as Hfirst
    by exact (extractCommitMessage_clean m Hm).
  assert (extractCommitMessage (extractCommitMessage m) = extractCommitMessage m)
    as Hsecond.
  { rewrite Hfirst.
    rewrite extractCommitMessage_clean by (by apply replace_fences_clean).
    apply replace_fences_idem. }
  assert (plain_quotes (extractCommitMessage m) = plain_quotes m) as Hquotes.
  { rewrite Hfirst. by apply replace_fences_from_plain_quotes. }
  split; [exact Hsecond|]. split; [exact Hfirst|]. split; [exact Hquotes|].
  split; [by rewrite Hsecond|].
  intros Hf.
  assert (extractCommitMessage m = m) as Hfix
    by (by apply extractCommitMessage_fixpoint).
  split; [exact Hfix|]. by rewrite !Hfix.
Qed.

Lemma quoted_word_message_clean : clean quoted_word_message.
Proof.
  split; [reflexivity|]. split; intros c [= <-]; reflexivity.
Qed.

(** The message [fix: keep 'staged' flag when the `diff` is empty]
    keeps its quotes and backticks through both applications. *)
Lemma extractCommitMessage_idempotent_witness :
  clean quoted_word_message
  /\ has_fence quoted_word_message = false
  /\ extractCommitMessage quoted_word_message = quoted_word_message
  /\ extractCommitMessage (extractCommitMessage quoted_word_message)
     = quoted_word_message.
Proof.
  split; [exact quoted_word_message_clean|]. split; [reflexivity|].
  refine (proj2 (proj2 (proj2 (proj2
            (extractCommitMessage_idempotent quoted_word_message
               quoted_word_message_clean)))) _).
  reflexivity.
Defined.

End ExtractFacts.

(** ** Status parsing *)
Module StatusFacts.
Import JS JSFacts GitExtensionService StatusSpec EffM Hosts.

#[local] Arguments is_ws : simpl never.

Lemma trimStart_all_ws s : all_ws s = true -> trimStart s = EmptyString.
Proof.
  induction s as [|c t IH]; [done|]. cbn [all_ws trimStart].
  intros [-> Ht]%andb_prop. by apply IH.
Qed.

Lemma trimStart_not_all_ws s :
  all_ws s = false -> exists c t, trimStart s = String c t /\ is_ws c = false.
Proof.
  induction s as [|c t IH]; [done|]. cbn [all_ws trimStart].
  destruct (is_ws c) eqn:Ec; [|by eauto]. simpl. exact IH.
Qed.

(** [line.trim()] is truthy exactly on the lines that are not blank. *)
Lemma truthy_trim s : truthy (trim s) = negb (all_ws s).
Proof.
  unfold trim. destruct (all_ws s) eqn:Es.
  - by rewrite trimStart_all_ws.
  - destruct (trimStart_not_all_ws s Es) as (c & t & -> & Hc).
    cbn [trimEnd]. destruct (trimEnd t); [rewrite Hc|]; reflexivity.
Qed.

Lemma split_all_ws s :
  all_ws s = true -> Forall (fun line => all_ws line = true) (split LF s).
Proof.
  induction s as [|c t IH]; [by repeat constructor|].
  cbn [all_ws split]. intros [Hc Ht]%andb_prop. specialize (IH Ht).
  destruct (Ascii.eqb c LF); [by constructor|].
  destruct (split LF t) as [|h r]; [by repeat constructor; simpl; rewrite Hc|].
  inversion IH; subst. constructor; [|done]. simpl. by rewrite Hc.
Qed.

(** When the whole output is blank there is no line to parse: the
    early [return []] agrees with the loop. *)
Lemma blank_output_no_lines s :
  all_ws s = true -> List.filter nonblank (split LF s) = [].
Proof.
  intros Hs. pose proof (split_all_ws s Hs) as Hall.
  induction Hall as [|line lines Hline _ IH]; [done|].
  cbn [List.filter]. unfold nonblank at 1. by rewrite Hline.
Qed.

Lemma getChangeStatusFromCode_table code :
  getChangeStatusFromCode code = statusOf code.
Proof.
  unfold getChangeStatusFromCode, statusOf, statusTable. cbn [List.find fst snd].
  rewrite !(String.eqb_sym code).
  repeat match goal with
         | |- context [String.eqb ?a code] => destruct (String.eqb a code); [reflexivity|]
         end.
  reflexivity.
Qed.

Section WithHost.
Context `{GitHost}.

Lemma gatherChanges_loop_spec this lines changes :
  gatherChanges_loop this lines changes
  = changes ++ List.map (change_of_line (workspaceRoot this))
                        (List.filter long_enough lines).
Proof.
  revert changes. induction lines as [|line rest IH]; intros changes.
  - simpl. by rewrite app_nil_r.
  - cbn [gatherChanges_loop List.filter]. unfold long_enough at 1.
    destruct (String.length line <? 2) eqn:El.
    + apply Nat.ltb_lt in El.
      assert ((2 <=? String.length line) = false) as -> by (apply Nat.leb_gt; lia).
      apply IH.
    + apply Nat.ltb_ge in El.
      assert ((2 <=? String.length line) = true) as -> by (by apply Nat.leb_le).
      rewrite IH, <- app_assoc. cbn [List.map app].
      unfold change_of_line at 2. by rewrite getChangeStatusFromCode_table.
Qed.

(** C4.  For every status output, [gatherChanges] returns (it does
    not throw) the list that holds, in order, exactly one Change
    per non-blank line of at least two characters: lines shorter
    than two characters are skipped; the status of a Change is the
    trimmed first character of its line looked up in the fixed
    table (M Modified, A Added, D Deleted, R Renamed, C Copied,
    U Updated, ? Untracked, anything else Unknown) and its
    [filePath] is the workspace root joined with the trimmed
    remainder of the line. *)
Theorem gatherChanges_parses_status (this : Service)
    (options : GitProgressOptions) (statusOutput : string) :
  getStatus this (staged options) = Ok statusOutput ->
  gatherChanges this options
  = (Ok (changes_of_status (workspaceRoot this) statusOutput), []).
Proof.
  intros Hstatus. unfold gatherChanges, changes_of_status.
  rewrite Hstatus. cbn [lift bind try_catch].
  rewrite truthy_trim, negb_involutive.
  assert (List.filter (fun line => truthy (trim line)) (split LF statusOutput)
          = List.filter nonblank (split LF statusOutput)) as ->.
  { apply List.filter_ext. intros line. apply truthy_trim. }
  destruct (all_ws statusOutput) eqn:Hblank.
  - rewrite blank_output_no_lines by done. reflexivity.
  - cbn [ret]. rewrite gatherChanges_loop_spec. reflexivity.
Qed.

End WithHost.

Lemma gatherChanges_parses_status_witness :
  @getStatus two_files (@new two_files repo_root) (staged staged_only)
  = Ok ("M file1.ts" +:+ JS.nl +:+ "A file2.ts" +:+ JS.nl)
  /\ @gatherChanges two_files (@new two_files repo_root) staged_only
     = (Ok [ {| filePath := "/repo/file1.ts"; status := "Modified" |};
             {| filePath := "/repo/file2.ts"; status := "Added" |} ], []).
Proof.
  split; [reflexivity|].
  exact (@gatherChanges_parses_status two_files (@new two_files repo_root) staged_only
           ("M file1.ts" +:+ JS.nl +:+ "A file2.ts" +:+ JS.nl) eq_refl).
Defined.

End StatusFacts.

(** ** Context building *)
Module ContextFacts.
Import JS JSFacts GitExtensionService EffM FilterSpec ServiceSpec Hosts.

(** *** The effect layer *)

Lemma try_catch_total {A} (m : Eff A) (h : Thrown -> Eff A) :
  (forall e, exists a l, h e = (Ok a, l)) ->
  exists a l, try_catch m h = (Ok a, l).
Proof.
  intros Hh. destruct m as [[a|e] l]; simpl; [by eauto|].
  destruct (Hh e) as (a & l' & ->). eauto.
Qed.

Lemma bind_pair {A B} (a : A) (l : list Log) (k : A -> Eff B) :
  bind (Ok a, l) k = (fst (k a), l ++ snd (k a)).
Proof. cbn. by destruct (k a). Qed.

Lemma bind_ret_l {A B} (a : A) (k : A -> Eff B) : bind (ret a) k = k a.
Proof. cbn. by destruct (k a). Qed.

Lemma bind_assoc_lift {A B C} (a : A) (k : A -> Eff B) (k' : B -> Eff C) :
  bind (bind (lift (Ok a)) k) k' = bind (k a) k'.
Proof. cbn. by destruct (k a) as [[b|e] l]. Qed.

Lemma bind_throw {A B} (m : Eff A) (k : A -> Eff B) e :
  fst m = Throw e -> fst (bind m k) = Throw e.
Proof. destruct m as [[a|e'] l]; simpl; [discriminate|by intros [= ->]]. Qed.

Lemma bind_ok {A B} (m : Eff A) (k : A -> Eff B) a :
  fst m = Ok a -> fst (bind m k) = fst (k a).
Proof.
  destruct m as [[a'|e'] l]; simpl; [|discriminate].
  intros [= <-]. by destruct (k a').
Qed.

Lemma try_catch_throw {A} (m : Eff A) (h : Thrown -> Eff A) e :
  fst m = Throw e -> fst (try_catch m h) = fst (h e).
Proof.
  destruct m as [[a|e'] l]; simpl; [discriminate|].
  intros [= ->]. by destruct (h e).
Qed.

Lemma try_catch_ok {A} (m : Eff A) (h : Thrown -> Eff A) a :
  fst m = Ok a -> fst (try_catch m h) = Ok a.
Proof. destruct m as [[a'|e'] l]; simpl; [done|discriminate]. Qed.



Section WithHost.
Context `{GitHost}.

(** *** No exception leaves the service *)

Lemma isValidFile_total this filePath :
  exists valid l, isValidFile this filePath = (Ok valid, l).
Proof.
  unfold isValidFile. destruct (ignoreController this); [|by eexists _, _].
  apply try_catch_total. intros e. by eexists _, _.
Qed.

Lemma getDiffForChanges_total this options :
  exists diff l, getDiffForChanges this options = (Ok diff, l).
Proof. apply try_catch_total. intros e. by eexists _, _. Qed.

Lemma getCommitContext_total this changes options :
  exists doc l, getCommitContext this changes options = (Ok doc, l).
Proof. apply try_catch_total. intros e. by eexists _, _. Qed.

(** *** When every adapter call fails *)

Lemma getDiffForChanges_listing_fails this options e :
  spawnGitWithArgs this (nameOnlyArgs (staged options)) = Throw e ->
  fst (getDiffForChanges this options) = Ok "".
Proof. intros Hl. unfold getDiffForChanges. by rewrite Hl. Qed.

(** The rest of the document once the diff section is in place. *)
Lemma getCommitContext_unfold this changes options :
  fst (getCommitContext this changes options)
  = match fst (getDiffForChanges this options) with
    | Ok diff =>
        let summary :=
          match getSummary this (staged options) with
          | Ok summary => summary
          | Throw _ => noSummaryAvailable
          end in
        let branch :=
          match getCurrentBranch this with
          | Ok currentBranch =>
              if truthy currentBranch then branchSection currentBranch else ""
          | Throw _ => ""
          end in
        let commits :=
          match getRecentCommits this 5 with
          | Ok recentCommits =>
              if truthy recentCommits then commitsSection recentCommits else ""
          | Throw _ => ""
          end in
        Ok (contextHeader +:+ diffSection (staged options) diff
            +:+ summarySection summary +:+ repositoryContextHeading
            +:+ branch +:+ commits)
    | Throw _ => Ok errorContext
    end.
Proof.
  destruct (getDiffForChanges_total this options) as (diff & l & Hd).
  unfold getCommitContext. rewrite Hd. cbn [fst bind try_catch ret].
  destruct (getSummary this (staged options)) as [summary|e1];
    destruct (getCurrentBranch this) as [currentBranch|e2];
    destruct (getRecentCommits this 5) as [recentCommits|e3];
    cbn [fst snd bind try_catch ret lift];
    repeat match goal with
           | |- context [truthy ?x] => destruct (truthy x)
           end;
    cbn [fst snd bind try_catch ret lift];
    rewrite ?append_assoc, ?append_nil_r; reflexivity.
Qed.

(** C3, as amended.  For every ChangeSet and BuildRequest,
    [getCommitContext] returns a document and never propagates an
    exception to its caller.  When every adapter call throws, the
    document is the header, the diff section, the statistical
    summary section holding its placeholder, and the "Repository
    Context" heading; the current-branch and recent-commits
    sections are left out, without a placeholder. *)
Theorem getCommitContext_degrades (this : Service) (changes : list GitChange)
    (options : GitProgressOptions) :
  (exists doc l, getCommitContext this changes options = (Ok doc, l))
  /\ ((forall args, exists e, spawnGitWithArgs this args = Throw e) ->
      exists diff,
        fst (getCommitContext this changes options)
        = Ok (contextHeader +:+ diffSection (staged options) diff
              +:+ summarySection noSummaryAvailable
              +:+ repositoryContextHeading)).
Proof.
  split; [apply getCommitContext_total|].
  intros Hfail. rewrite getCommitContext_unfold.
  destruct (Hfail (nameOnlyArgs (staged options))) as [e0 He0].
  rewrite (getDiffForChanges_listing_fails this options e0 He0).
  unfold getSummary, getCurrentBranch, getRecentCommits.
  destruct (Hfail (if staged options then ["diff"; "--cached"; "--stat"]
                   else ["diff"; "--stat"])) as [e1 ->].
  destruct (Hfail ["branch"; "--show-current"]) as [e2 ->].
  destruct (Hfail ["log"; "--oneline"; "-" +:+ pretty 5]) as [e3 ->].
  exists "". cbn zeta. by rewrite !append_nil_r.
Qed.

(** *** A failing single-file diff *)

Lemma try_catch_caught {A} (m : Eff A) (h : Thrown -> Eff A) e :
  fst m = Throw e -> try_catch m h = (fst (h e), snd m ++ snd (h e)).
Proof.
  destruct m as [[a|e'] l]; simpl; [discriminate|].
  intros [= ->]. by destruct (h e).
Qed.

Lemma getDiffForChanges_loop_throws this options total files filePath e :
  In filePath files ->
  fst (isValidFile this filePath) = Ok true ->
  shouldExcludeLockFile filePath = false ->
  getGitDiff this filePath (staged options) = Throw e ->
  forall processedFiles diffs,
    exists e', fst (getDiffForChanges_loop this options total files
                      processedFiles diffs) = Throw e'.
Proof.
  intros Hin Hvalid Hlock Hdiff.
  induction files as [|file rest IH]; intros processedFiles diffs; [done|].
  cbn [getDiffForChanges_loop].
  destruct (isValidFile_total this file) as (valid & l & Hfile).
  rewrite Hfile. cbn [bind].
  destruct (decide (file = filePath)) as [->|Hne].
  - rewrite Hfile in Hvalid. injection Hvalid as ->.
    rewrite Hlock, Hdiff. cbn. eauto.
  - destruct Hin as [?|Hin]; [done|]. specialize (IH Hin).
    match goal with
    | |- context [bind ?m ?k] => destruct m as [[diffs'|e1] l1] eqn:Hm
    end; cbn; [|by eauto].
    match goal with
    | |- context [bind ?m ?k] => destruct m as [[[]|e2] l2] eqn:Hp
    end; cbn; [|by eauto].
    destruct (IH (S processedFiles) diffs') as [e' He'].
    destruct (getDiffForChanges_loop this options total rest
                (S processedFiles) diffs') as [r3 l3].
    simpl in He'. subst r3. cbn. eauto.
Qed.

(** C5, as amended.  When the single-file diff command fails for a
    file that the filter lets through, the failure is caught for
    the diff section as a whole, not for that file: the error is
    logged and the body of the diff section is the empty string,
    so the diffs of the other files are left out as well; the
    document is still built around that empty body. *)
Theorem single_file_diff_failure_empties_section (this : Service)
    (changes : list GitChange) (options : GitProgressOptions)
    (listing filePath e : string) :
  spawnGitWithArgs this (nameOnlyArgs (staged options)) = Ok listing ->
  In filePath (listedFiles listing) ->
  fst (isValidFile this filePath) = Ok true ->
  shouldExcludeLockFile filePath = false ->
  getGitDiff this filePath (staged options) = Throw e ->
  fst (getDiffForChanges this options) = Ok ""
  /\ In (diffError (staged options)) (snd (getDiffForChanges this options))
  /\ exists rest,
       fst (getCommitContext this changes options)
       = Ok (contextHeader +:+ diffSection (staged options) "" +:+ rest).
Proof.
  intros Hlist Hin Hvalid Hlock Hdiff.
  assert (getDiffForChanges this options
          = (Ok "", snd (getDiffForChanges this options))
          /\ In (diffError (staged options))
                (snd (getDiffForChanges this options))) as [Hd Hlog].
  { unfold getDiffForChanges. rewrite Hlist. cbn [lift bind app].
    destruct (getDiffForChanges_loop_throws this options
                (length (listedFiles listing)) (listedFiles listing)
                filePath e Hin Hvalid Hlock Hdiff 0 []) as [e' He'].
    destruct (getDiffForChanges_loop this options _ _ 0 []) as [r l].
    simpl in He'. subst r. cbn. split; [done|].
    apply in_or_app. right. by left. }
  split; [by rewrite Hd|]. split; [done|].
  rewrite getCommitContext_unfold, Hd. cbn [fst]. eexists. reflexivity.
Qed.

(** *** An evaluator that throws *)



(** *** The diff section with an evaluator that throws *)





End WithHost.
End ContextFacts.

(** ** The service on concrete repositories *)
Module ContextExamples.
Import JS GitExtensionService EffM FilterSpec ServiceSpec Hosts ContextFacts.

Lemma getCommitContext_degrades_witness :
  (forall args, exists e,
      @spawnGitWithArgs not_a_repository (@new not_a_repository repo_root) args = Throw e)
  /\ exists diff,
       fst (@getCommitContext not_a_repository (@new not_a_repository repo_root) [] staged_only)
       = Ok (contextHeader +:+ diffSection true diff
             +:+ summarySection noSummaryAvailable +:+ repositoryContextHeading).
Proof.
  split.
  - intros args. eexists. reflexivity.
  - apply (proj2 (@getCommitContext_degrades not_a_repository (@new not_a_repository repo_root) []
                    staged_only)).
    intros args. eexists. reflexivity.
Defined.

(** C3 as stated fails: with every adapter call failing, the document
    holds one placeholder, the one of the statistical summary; it has
    no placeholder for the diff and no section at all for the current
    branch and the recent commits. *)
Lemma getCommitContext_all_fail_one_placeholder :
  (forall args, exists e,
      @spawnGitWithArgs not_a_repository (@new not_a_repository repo_root) args = Throw e)
  /\ exists doc,
       fst (@getCommitContext not_a_repository (@new not_a_repository repo_root) [] staged_only) = Ok doc
       /\ includes noSummaryAvailable doc = true
       /\ includes noDiffAvailable doc = false
       /\ includes currentBranchLabel doc = false
       /\ includes recentCommitsLabel doc = false.
Proof.
  split.
  - intros args. eexists. reflexivity.
  - eexists. split; [reflexivity|]. repeat split; vm_compute; reflexivity.
Qed.

Lemma single_file_diff_failure_empties_section_witness :
  @spawnGitWithArgs two_files (@new two_files repo_root) (nameOnlyArgs true)
  = Ok ("a.ts" +:+ nl +:+ "b.ts" +:+ nl)
  /\ In "b.ts" (listedFiles ("a.ts" +:+ nl +:+ "b.ts" +:+ nl))
  /\ fst (@getDiffForChanges two_files (@new two_files repo_root) staged_only) = Ok "".
Proof.
  split; [reflexivity|]. split; [right; left; reflexivity|].
  refine (proj1 (@single_file_diff_failure_empties_section two_files (@new two_files repo_root) []
                   staged_only ("a.ts" +:+ nl +:+ "b.ts" +:+ nl) "b.ts"
                   "Git command failed with status 1: fatal: bad revision"
                   _ _ _ _ _)).
  - reflexivity.
  - right; left; reflexivity.
  - reflexivity.
  - reflexivity.
  - reflexivity.
Defined.

(** C5 as stated fails: the diff of [a.ts] is available, the one of
    [b.ts] fails, and the assembled diff section holds neither. *)
Lemma getDiffForChanges_drops_every_file :
  @getGitDiff two_files (@new two_files repo_root) "a.ts" true
  = Ok ("diff --git a/a.ts b/a.ts" +:+ nl)
  /\ @getGitDiff two_files (@new two_files repo_root) "b.ts" true
     = Throw "Git command failed with status 1: fatal: bad revision"
  /\ @getDiffForChanges two_files (@new two_files repo_root) staged_only
     = (Ok "", [diffError true])
  /\ exists doc,
       fst (@getCommitContext two_files (@new two_files repo_root) [] staged_only) = Ok doc
       /\ includes "diff --git a/a.ts b/a.ts" doc = false.
Proof.
  split; [reflexivity|]. split; [reflexivity|]. split; [reflexivity|].
  eexists. split; [reflexivity|]. vm_compute. reflexivity.
Qed.


(** The file the evaluator could not judge is in the diff; the one it
    denied is not. *)
Example unreadable_rules_diff :
  @getDiffForChanges unreadable_rules (@new unreadable_rules repo_root) staged_only
  = (Ok "diff --git a/a.ts b/a.ts", [accessWarning "a.ts"]).
Proof. reflexivity. Qed.

End ContextExamples.

(** ** The provider *)
Module ProviderFacts.
Import JS JSFacts GitExtensionService CommitMessageProvider CommitMessageProvider.M.

(** Runs the monadic combinators of a goal. *)
Ltac run_M :=
  repeat (unfold bind, get, put, ret, throw, emit, log, liftE, liftR, try_catch,
            set_gitService, set_currentWorkspaceRoot, set_previousGitContext,
            set_previousCommitMessage, set_targetRepository,
            construct_service, dispose_service, call_gatherChanges,
            call_getCommitContext;
          cbn [fst snd this constructed gitService previousGitContext
               previousCommitMessage targetRepository currentWorkspaceRoot
               id root service GitExtensionService.new ignoreController
               app List.map length Nat.eqb staged]).

Section WithHost.
Context `{GitHost} `{GitServiceMethods} `{ProviderHost}.

Lemma gatherGitChanges_unfold (workspacePath : string) (w : World) :
  gatherGitChanges workspacePath w
  = let w1 := rebound w workspacePath in
    let l1 := rebinding w workspacePath in
    match gitService (this w1) with
    | None => (Throw "Failed to initialize Git service", w1, l1)
    | Some svc =>
        let first := service_gatherChanges (service svc)
                       {| staged := true; onProgress := None |} in
        let second := service_gatherChanges (service svc)
                        {| staged := false; onProgress := None |} in
        match fst first with
        | Ok [] =>
            (match fst second with
             | Ok changes => Ok (changes, false)
             | Throw e => Throw e
             end, w1,
             l1 ++ GatherChanges (id svc) true :: List.map Logged (snd first)
                ++ GatherChanges (id svc) false :: List.map Logged (snd second))
        | Ok changes =>
            (Ok (changes, true), w1,
             l1 ++ GatherChanges (id svc) true :: List.map Logged (snd first))
        | Throw e =>
            (Throw e, w1,
             l1 ++ GatherChanges (id svc) true :: List.map Logged (snd first))
        end
    end.
Proof.
  unfold gatherGitChanges, rebound, rebinding.
  destruct w as [[svc ctx msg target current] n].
  cbn [this constructed currentWorkspaceRoot gitService].
  run_M.
  destruct (bool_decide (current = Some workspacePath)) eqn:Hb;
    [|destruct svc as [old|]];
    cbn [negb]; run_M;
    repeat match goal with
           | |- context [service_gatherChanges ?s ?o] =>
               destruct (service_gatherChanges s o) as [[[|? ?]|?] ?]; run_M
           | |- context [match ?x with Some _ => _ | None => _ end] =>
               is_var x; destruct x; run_M
           end;
    rewrite ?app_nil_r, <- ?app_assoc; reflexivity.
Qed.

Lemma rebound_service w workspacePath :
  gitService (this (rebound w workspacePath)) = bound_service w workspacePath.
Proof. unfold rebound, bound_service. by case_bool_decide. Qed.

Lemma rebound_previous w workspacePath :
  previousGitContext (this (rebound w workspacePath)) = previousGitContext (this w)
  /\ previousCommitMessage (this (rebound w workspacePath))
     = previousCommitMessage (this w).
Proof. unfold rebound. by case_bool_decide. Qed.

Lemma gather_calls_app l1 l2 :
  gather_calls (l1 ++ l2) = gather_calls l1 ++ gather_calls l2.
Proof.
  induction l1 as [|ev l1 IH]; [done|]. destruct ev; simpl; by rewrite ?IH.
Qed.

Lemma gather_calls_logged (l : list Log) : gather_calls (List.map Logged l) = [].
Proof. by induction l. Qed.

Lemma gather_calls_rebinding w workspacePath :
  gather_calls (rebinding w workspacePath) = [].
Proof.
  unfold rebinding. case_bool_decide; [done|]. by destruct (gitService (this w)).
Qed.

Lemma lifecycle_app l1 l2 : lifecycle (l1 ++ l2) = lifecycle l1 ++ lifecycle l2.
Proof.
  induction l1 as [|ev l1 IH]; [done|]. destruct ev; simpl; by rewrite ?IH.
Qed.

Lemma lifecycle_logged (l : list Log) : lifecycle (List.map Logged l) = [].
Proof. by induction l. Qed.

(** The calls to [gatherChanges] of one run of [gatherGitChanges]. *)
Lemma gatherGitChanges_calls w workspacePath svc :
  bound_service w workspacePath = Some svc ->
  gather_calls (snd (gatherGitChanges workspacePath w))
  = true ::
    match fst (service_gatherChanges (service svc)
                 {| staged := true; onProgress := None |}) with
    | Ok [] => [false]
    | _ => []
    end.
Proof.
  intros Hsvc. rewrite gatherGitChanges_unfold. cbn zeta.
  rewrite rebound_service, Hsvc.
  destruct (fst (service_gatherChanges (service svc) _)) as [[|c cs]|e];
    cbn [snd];
    rewrite !gather_calls_app, gather_calls_rebinding; cbn [gather_calls app];
    rewrite ?gather_calls_app, ?gather_calls_logged; cbn [gather_calls app];
    rewrite ?gather_calls_logged; reflexivity.
Qed.

(** *** Steps that leave the provider as it is *)

Lemma gitService_getCommitContext_state changes options w :
  snd (fst (gitService_getCommitContext changes options w)) = w.
Proof.
  unfold gitService_getCommitContext. run_M.
  destruct (gitService (this w)); run_M; done.
Qed.

Lemma configToUse_state w : snd (fst (configToUse w)) = w.
Proof.
  unfold configToUse. run_M. repeat (case_match; run_M); by simplify_eq.
Qed.

Lemma buildCommitMessagePrompt_state gitContextString custom w :
  snd (fst (buildCommitMessagePrompt gitContextString custom w)) = w.
Proof.
  unfold buildCommitMessagePrompt. run_M. repeat (case_match; run_M); by simplify_eq.
Qed.

Lemma callAIForCommitMessage_state gitContextString w :
  snd (fst (callAIForCommitMessage gitContextString w)) = w.
Proof.
  unfold callAIForCommitMessage. unfold bind at 1.
  pose proof (configToUse_state w) as Hc.
  destruct (configToUse w) as [[[config|e] w1] l1]; simpl in Hc; subst w1; [|done].
  unfold bind at 1.
  pose proof (buildCommitMessagePrompt_state gitContextString customSupportPrompts w)
    as Hb.
  destruct (buildCommitMessagePrompt _ _ w) as [[[prompt|e] w1] l2];
    simpl in Hb; subst w1; [|done].
  run_M. by destruct (singleCompletionHandler config prompt).
Qed.

(** The state a programmatic run ends in, by outcome. *)
Lemma generateCommitMessageForExternal_state workspacePath w :
  snd (fst (generateCommitMessageForExternal workspacePath w))
  = match run_outcome None workspacePath w with
    | Generated gitContextString generatedMessage =>
        with_previous (rebound w workspacePath) gitContextString generatedMessage
    | _ => rebound w workspacePath
    end.
Proof.
  unfold generateCommitMessageForExternal, run_outcome.
  unfold try_catch, bind at 1.
  assert (snd (fst (gatherGitChanges workspacePath w)) = rebound w workspacePath)
    as Hg.
  { rewrite gatherGitChanges_unfold. cbn zeta.
    repeat (case_match; cbn [fst snd]); done. }
  destruct (gatherGitChanges workspacePath w) as [[[[changes staged]|e] w1] l1];
    simpl in Hg; subst w1; [|done].
  destruct (length changes =? 0); [done|].
  unfold bind at 1.
  pose proof (gitService_getCommitContext_state changes
                {| staged := staged; onProgress := None |}
                (rebound w workspacePath)) as Hc.
  destruct (gitService_getCommitContext _ _ _) as [[[doc|e] w2] l2];
    simpl in Hc; subst w2; [|done].
  unfold bind at 1.
  pose proof (callAIForCommitMessage_state doc (rebound w workspacePath)) as Ha.
  destruct (callAIForCommitMessage _ _) as [[[msg|e] w3] l3];
    simpl in Ha; subst w3; [|done].
  run_M. reflexivity.
Qed.

(** The value a programmatic run resolves to, by outcome. *)
Lemma generateCommitMessageForExternal_value workspacePath w :
  fst (fst (generateCommitMessageForExternal workspacePath w))
  = Ok match run_outcome None workspacePath w with
       | GatheringThrew e | ContextThrew e | CompletionThrew e =>
           {| message := ""; error := Some (errorMessage e) |}
       | NoChanges =>
           {| message := "";
              error := Some "No changes found to generate commit message" |}
       | Generated _ generatedMessage =>
           {| message := generatedMessage; error := None |}
       end.
Proof.
  unfold generateCommitMessageForExternal, run_outcome.
  unfold try_catch, bind at 1.
  destruct (gatherGitChanges workspacePath w) as [[[[changes staged]|e] w1] l1];
    [|done].
  destruct (length changes =? 0); [done|].
  unfold bind at 1.
  destruct (gitService_getCommitContext _ _ _) as [[[doc|e] w2] l2]; [|done].
  unfold bind at 1.
  destruct (callAIForCommitMessage _ _) as [[[msg|e] w3] l3]; [|done].
  run_M. reflexivity.
Qed.

Lemma gatherGitChanges_state workspacePath w :
  snd (fst (gatherGitChanges workspacePath w)) = rebound w workspacePath.
Proof.
  rewrite gatherGitChanges_unfold. cbn zeta.
  repeat (case_match; cbn [fst snd]); done.
Qed.

Lemma lifecycle_rebinding w workspacePath :
  lifecycle (rebinding w workspacePath) = rebinding w workspacePath.
Proof.
  unfold rebinding. case_bool_decide; [done|]. by destruct (gitService (this w)).
Qed.

Lemma gatherGitChanges_lifecycle workspacePath w :
  lifecycle (snd (gatherGitChanges workspacePath w)) = rebinding w workspacePath.
Proof.
  rewrite gatherGitChanges_unfold. cbn zeta.
  repeat (case_match; cbn [fst snd]);
    rewrite ?lifecycle_app, ?lifecycle_rebinding; cbn [lifecycle];
    rewrite ?lifecycle_app, ?lifecycle_logged; cbn [lifecycle];
    rewrite ?lifecycle_logged, ?app_nil_r; done.
Qed.

Lemma setCommitMessage_state generatedMessage w :
  snd (fst (setCommitMessage generatedMessage w)) = w.
Proof.
  unfold setCommitMessage, copyToClipboardFallback. run_M.
  repeat (case_match; run_M); by simplify_eq.
Qed.

(** The state an interactive run ends in, by outcome. *)
Lemma generateCommitMessageVsCode_task_state workspaceRoot w :
  snd (fst (generateCommitMessageVsCode_task workspaceRoot w))
  = match run_outcome (Some onDiffProgress) workspaceRoot w with
    | Generated gitContextString generatedMessage =>
        with_previous (rebound w workspaceRoot) gitContextString generatedMessage
    | _ => rebound w workspaceRoot
    end.
Proof.
  unfold generateCommitMessageVsCode_task, run_outcome,
    callAIForCommitMessageWithProgress.
  unfold try_catch, bind at 1.
  pose proof (gatherGitChanges_state workspaceRoot w) as Hg.
  destruct (gatherGitChanges workspaceRoot w) as [[[[changes staged]|e] w1] l1];
    simpl in Hg; subst w1; [|done].
  destruct (length changes =? 0); [done|].
  unfold bind at 1.
  assert (forall m : M unit, (exists l, m (rebound w workspaceRoot)
                               = (Ok tt, rebound w workspaceRoot, l)) ->
          forall k : unit -> M unit,
            bind m k (rebound w workspaceRoot)
            = (fst (k tt (rebound w workspaceRoot)),
               snd (m (rebound w workspaceRoot))
               ++ snd (k tt (rebound w workspaceRoot)))) as Hskip.
  { intros m [l Hm] k. unfold bind. rewrite Hm.
    by destruct (k tt (rebound w workspaceRoot)) as [[??]?]. }
  match goal with
  | |- context [(if ?c then ?a else ?b) (rebound w workspaceRoot)] =>
      assert (exists l, (if c then a else b) (rebound w workspaceRoot)
                        = (Ok tt, rebound w workspaceRoot, l)) as [l0 Hl0]
        by (destruct c; eexists; reflexivity);
      rewrite Hl0
  end.
  unfold bind at 1.
  pose proof (gitService_getCommitContext_state changes
                {| staged := staged; onProgress := Some onDiffProgress |}
                (rebound w workspaceRoot)) as Hc.
  destruct (gitService_getCommitContext _ _ _) as [[[doc|e] w2] l2];
    simpl in Hc; subst w2; [|done].
  unfold bind at 1.
  pose proof (callAIForCommitMessage_state doc (rebound w workspaceRoot)) as Ha.
  destruct (callAIForCommitMessage _ _) as [[[msg|e] w3] l3];
    simpl in Ha; subst w3; [|done].
  unfold bind at 1. unfold set_previousGitContext at 1. run_M.
  match goal with
  | |- context [setCommitMessage msg ?w0] =>
      pose proof (setCommitMessage_state msg w0) as Hs;
      destruct (setCommitMessage msg w0) as [[[[]|e] w4] l4];
      simpl in Hs; subst w4; done
  end.
Qed.

(** *** A provider in use has a service for every root *)

Lemma initial_in_use : in_use initial.
Proof. by left. Qed.

Lemma in_use_bound_service w workspacePath :
  in_use w -> is_Some (bound_service w workspacePath).
Proof.
  unfold bound_service. intros [Hnone|Hsome]; case_bool_decide; eauto; congruence.
Qed.

Lemma rebound_in_use w workspacePath :
  in_use w -> in_use (rebound w workspacePath).
Proof.
  unfold rebound. intros Hw. case_bool_decide; [done|]. right. cbn. eauto.
Qed.

Lemma gatherGitChanges_in_use w workspacePath :
  in_use w -> in_use (snd (fst (gatherGitChanges workspacePath w))).
Proof. rewrite gatherGitChanges_state. apply rebound_in_use. Qed.

Lemma generateCommitMessageForExternal_in_use w workspacePath :
  in_use w -> in_use (snd (fst (generateCommitMessageForExternal workspacePath w))).
Proof.
  intros Hw. rewrite generateCommitMessageForExternal_state.
  pose proof (rebound_in_use w workspacePath Hw) as Hr.
  by destruct (run_outcome None workspacePath w).
Qed.

Lemma generateCommitMessageVsCode_task_in_use w workspaceRoot :
  in_use w -> in_use (snd (fst (generateCommitMessageVsCode_task workspaceRoot w))).
Proof.
  intros Hw. rewrite generateCommitMessageVsCode_task_state.
  pose proof (rebound_in_use w workspaceRoot Hw) as Hr.
  by destruct (run_outcome (Some onDiffProgress) workspaceRoot w).
Qed.

(** *** The fallback from staged to unstaged changes *)

Lemma gatherGitChanges_value w workspacePath svc :
  bound_service w workspacePath = Some svc ->
  fst (fst (gatherGitChanges workspacePath w))
  = match fst (service_gatherChanges (service svc)
                 {| staged := true; onProgress := None |}) with
    | Ok [] =>
        match fst (service_gatherChanges (service svc)
                     {| staged := false; onProgress := None |}) with
        | Ok changes => Ok (changes, false)
        | Throw e => Throw e
        end
    | Ok changes => Ok (changes, true)
    | Throw e => Throw e
    end.
Proof.
  intros Hsvc. rewrite gatherGitChanges_unfold. cbn zeta.
  rewrite rebound_service, Hsvc.
  by destruct (fst (service_gatherChanges (service svc) _)) as [[|c cs]|e].
Qed.

(** *** What follows the gathering step gathers and constructs nothing *)

Lemma gitService_getCommitContext_calls changes options w :
  gather_calls (snd (gitService_getCommitContext changes options w)) = []
  /\ lifecycle (snd (gitService_getCommitContext changes options w)) = [].
Proof.
  unfold gitService_getCommitContext. run_M.
  destruct (gitService (this w)); run_M; [|done].
  cbn. by rewrite ?app_nil_r, gather_calls_logged, lifecycle_logged.
Qed.

Lemma callAIForCommitMessage_calls gitContextString w :
  gather_calls (snd (callAIForCommitMessage gitContextString w)) = []
  /\ lifecycle (snd (callAIForCommitMessage gitContextString w)) = [].
Proof.
  unfold callAIForCommitMessage, configToUse, buildCommitMessagePrompt. run_M.
  repeat (case_match; run_M); simplify_eq; by cbn.
Qed.

Lemma setCommitMessage_calls generatedMessage w :
  gather_calls (snd (setCommitMessage generatedMessage w)) = []
  /\ lifecycle (snd (setCommitMessage generatedMessage w)) = [].
Proof.
  unfold setCommitMessage, copyToClipboardFallback. run_M.
  repeat (case_match; run_M); simplify_eq; by cbn.
Qed.

(** The events of a programmatic run are those of its gathering step,
    followed by events that are neither calls to [gatherChanges] nor
    constructions or disposals. *)
Lemma generateCommitMessageForExternal_after_gathering workspacePath w :
  exists rest,
    snd (generateCommitMessageForExternal workspacePath w)
    = snd (gatherGitChanges workspacePath w) ++ rest
    /\ gather_calls rest = [] /\ lifecycle rest = [].
Proof.
  remember (generateCommitMessageForExternal workspacePath w) as r eqn:Hr.
  revert Hr. unfold generateCommitMessageForExternal.
  unfold try_catch, bind at 1.
  destruct (gatherGitChanges workspacePath w) as [[[[changes staged]|e] w1] l1];
    [|run_M; intros ->; by exists []].
  destruct (length changes =? 0); [run_M; intros ->; by exists []|].
  unfold bind at 1.
  pose proof (gitService_getCommitContext_calls changes
                {| staged := staged; onProgress := None |} w1) as (Hc1 & Hc2).
  destruct (gitService_getCommitContext _ _ _) as [[[doc|e] w2] l2];
    cbn [snd] in Hc1, Hc2;
    [|run_M; intros ->; cbn [snd]; rewrite <- !app_assoc;
      eexists; split; [reflexivity|]; by rewrite app_nil_r].
  unfold bind at 1.
  pose proof (callAIForCommitMessage_calls doc w2) as (Ha1 & Ha2).
  destruct (callAIForCommitMessage _ _) as [[[msg|e] w3] l3];
    cbn [snd] in Ha1, Ha2; run_M; intros ->; cbn [snd];
    rewrite <- ?app_assoc; (eexists; split; [reflexivity|]);
    rewrite ?gather_calls_app, ?lifecycle_app, Hc1, Hc2, Ha1, Ha2; by cbn.
Qed.

(** The same for the task of the interactive entry point. *)
Lemma generateCommitMessageVsCode_task_after_gathering workspaceRoot w :
  exists rest,
    snd (generateCommitMessageVsCode_task workspaceRoot w)
    = snd (gatherGitChanges workspaceRoot w) ++ rest
    /\ gather_calls rest = [] /\ lifecycle rest = [].
Proof.
  remember (generateCommitMessageVsCode_task workspaceRoot w) as r eqn:Hr.
  revert Hr.
  unfold generateCommitMessageVsCode_task, callAIForCommitMessageWithProgress.
  unfold try_catch, bind at 1.
  destruct (gatherGitChanges workspaceRoot w) as [[[[changes staged]|e] w1] l1];
    [|run_M; intros ->; cbn [snd]; eexists; split; [reflexivity|]; by cbn].
  destruct (length changes =? 0);
    [run_M; intros ->; cbn [snd]; eexists; split; [reflexivity|]; by cbn|].
  unfold bind at 1.
  match goal with
  | |- context [(if ?c then ?a else ?b) w1] =>
      assert (exists l, (if c then a else b) w1 = (Ok tt, w1, l)
                        /\ gather_calls l = [] /\ lifecycle l = [])
        as (l0 & Hl0 & Hi1 & Hi2)
        by (destruct c; eexists; by split);
      rewrite Hl0
  end.
  unfold bind at 1.
  pose proof (gitService_getCommitContext_calls changes
                {| staged := staged; onProgress := Some onDiffProgress |} w1)
    as (Hc1 & Hc2).
  destruct (gitService_getCommitContext _ _ _) as [[[doc|e] w2] l2];
    cbn [snd] in Hc1, Hc2;
    [|run_M; intros ->; cbn [snd]; rewrite <- !app_assoc;
      eexists; split; [reflexivity|];
      rewrite ?gather_calls_app, ?lifecycle_app, Hi1, Hi2, Hc1, Hc2; by cbn].
  unfold bind at 1.
  pose proof (callAIForCommitMessage_calls doc w2) as (Ha1 & Ha2).
  destruct (callAIForCommitMessage _ _) as [[[msg|e] w3] l3];
    cbn [snd] in Ha1, Ha2;
    [|run_M; intros ->; cbn [snd]; rewrite <- !app_assoc;
      eexists; split; [reflexivity|];
      rewrite ?gather_calls_app, ?lifecycle_app, Hi1, Hi2, Hc1, Hc2, Ha1, Ha2;
      by cbn].
  unfold bind at 1. unfold set_previousGitContext at 1. run_M.
  match goal with
  | |- context [setCommitMessage msg ?w0] =>
      pose proof (setCommitMessage_calls msg w0) as (Hs1 & Hs2);
      destruct (setCommitMessage msg w0) as [[[[]|e] w4] l4]
  end;
    cbn [snd] in Hs1, Hs2; run_M; intros ->; cbn [snd];
    rewrite <- ?app_assoc; (eexists; split; [reflexivity|]);
    rewrite ?gather_calls_app, ?lifecycle_app,
      Hi1, Hi2, Hc1, Hc2, Ha1, Ha2, Hs1, Hs2; by cbn.
Qed.

(** A run for the bound root of a provider that holds no service stops
    at the guard of [gatherGitChanges]. *)
Lemma gatherGitChanges_guard w workspacePath :
  bound_service w workspacePath = None ->
  gatherGitChanges workspacePath w
  = (Throw "Failed to initialize Git service", w, []).
Proof.
  intros Hnone. rewrite gatherGitChanges_unfold. cbn zeta.
  rewrite rebound_service, Hnone. unfold rebound, rebinding.
  unfold bound_service in Hnone. by case_bool_decide.
Qed.

(** C2, as amended.  In every workflow run, programmatic or
    interactive, in which the provider holds a git service once the
    requested root is bound, change gathering is first invoked with
    [staged = true]; exactly when that call returns an empty list it
    is invoked once more, with [staged = false]; a call that throws
    is not retried.  When both calls return empty lists the
    programmatic workflow resolves to [{ message: "", error: "No
    changes found to generate commit message" }] and does not raise.
    In the remaining case, a run for the root the provider is bound
    to after [dispose()] has dropped its service, gathering is not
    invoked at all: the run stops at the guard and reports
    "Failed to initialize Git service". *)
Theorem staged_to_unstaged_fallback (w : World) (workspacePath : string) :
  let programmatic := generateCommitMessageForExternal workspacePath w in
  let interactive := generateCommitMessageVsCode_task workspacePath w in
  match bound_service w workspacePath with
  | Some svc =>
      let first := fst (service_gatherChanges (service svc)
                          {| staged := true; onProgress := None |}) in
      let second := fst (service_gatherChanges (service svc)
                           {| staged := false; onProgress := None |}) in
      let calls := match first with Ok [] => [true; false] | _ => [true] end in
      gather_calls (snd programmatic) = calls
      /\ gather_calls (snd interactive) = calls
      /\ (first = Ok [] -> second = Ok [] ->
          fst (fst programmatic)
          = Ok {| message := "";
                  error := Some "No changes found to generate commit message" |})
  | None =>
      currentWorkspaceRoot (this w) = Some workspacePath
      /\ gitService (this w) = None
      /\ gather_calls (snd programmatic) = []
      /\ gather_calls (snd interactive) = []
      /\ fst (fst programmatic)
         = Ok {| message := ""; error := Some "Failed to initialize Git service" |}
  end.
Proof.
  intros programmatic interactive.
  destruct (generateCommitMessageForExternal_after_gathering workspacePath w)
    as (rest & Hp & Hrest & _).
  destruct (generateCommitMessageVsCode_task_after_gathering workspacePath w)
    as (rest' & Hi & Hrest' & _).
  fold programmatic in Hp. fold interactive in Hi.
  destruct (bound_service w workspacePath) as [svc|] eqn:Hsvc.
  - intros first second calls.
    assert (gather_calls (snd (gatherGitChanges workspacePath w)) = calls) as Hcalls.
    { rewrite (gatherGitChanges_calls w workspacePath svc Hsvc). fold first.
      subst calls. by destruct first as [[|c cs]|e]. }
    split; [by rewrite Hp, gather_calls_app, Hcalls, Hrest, app_nil_r|].
    split; [by rewrite Hi, gather_calls_app, Hcalls, Hrest', app_nil_r|].
    intros Hfirst Hsecond. subst programmatic.
    rewrite generateCommitMessageForExternal_value. unfold run_outcome.
    pose proof (gatherGitChanges_value w workspacePath svc Hsvc) as Hv.
    fold first second in Hv. rewrite Hfirst, Hsecond in Hv.
    destruct (gatherGitChanges workspacePath w) as [[[[changes staged]|e] w1] l1];
      simpl in Hv; [|done].
    by injection Hv as -> ->.
  - pose proof (gatherGitChanges_guard w workspacePath Hsvc) as Hguard.
    assert (currentWorkspaceRoot (this w) = Some workspacePath
            /\ gitService (this w) = None) as [Hroot Hnone].
    { unfold bound_service in Hsvc. by case_bool_decide. }
    split; [done|]. split; [done|].
    rewrite Hguard in Hp, Hi. cbn [snd app] in Hp, Hi.
    split; [by rewrite Hp|]. split; [by rewrite Hi|].
    subst programmatic. rewrite generateCommitMessageForExternal_value.
    unfold run_outcome. by rewrite Hguard.
Qed.

(** *** The binding of a service to its root *)

Lemma rebound_well_bound w workspacePath :
  well_bound w -> well_bound (rebound w workspacePath).
Proof.
  unfold well_bound, rebound. intros Hw i. case_bool_decide; [by apply Hw|].
  cbn. intros [= <-]. cbn. split; [lia|done].
Qed.

(** C9.  A service keeps the root it was constructed with: across
    a call to [gatherGitChanges] an object with the same identity
    has the same root, and the service held is always one
    constructed for the root the provider is bound to.  When the
    provider is asked to gather changes for a path other than the
    bound one, the evaluator of the old service is disposed first
    and then a new service is constructed for the new root, which
    becomes the service held; for the bound path nothing is
    disposed or constructed. *)
Theorem workspace_root_binding (w : World) (workspacePath : string) :
  well_bound w ->
  let w' := snd (fst (gatherGitChanges workspacePath w)) in
  let events := lifecycle (snd (gatherGitChanges workspacePath w)) in
  well_bound w'
  /\ (forall i j, gitService (this w) = Some i -> gitService (this w') = Some j ->
                  id i = id j -> root i = root j)
  /\ (currentWorkspaceRoot (this w) = Some workspacePath ->
      gitService (this w') = gitService (this w) /\ events = [])
  /\ (currentWorkspaceRoot (this w) <> Some workspacePath ->
      gitService (this w') = Some {| id := constructed w; root := workspacePath |}
      /\ currentWorkspaceRoot (this w') = Some workspacePath
      /\ events = match gitService (this w) with
                  | Some old => [Disposed (id old)]
                  | None => []
                  end ++ [Constructed (constructed w) workspacePath]).
Proof.
  intros Hw w' events. subst w' events.
  rewrite gatherGitChanges_state, gatherGitChanges_lifecycle.
  split; [by apply rebound_well_bound|].
  unfold rebound, rebinding. case_bool_decide as Hb.
  - split; [intros i j Hi Hj _; congruence|]. by split.
  - split; [|by split].
    intros i j Hi [= <-]. cbn. destruct (Hw i Hi) as [Hlt _]. lia.
Qed.

(** *** The fields of the previous run *)

(** C10.  For every generation run, programmatic or interactive,
    in which gathering changes, building the context or the
    completion call throws, [previousGitContext] and
    [previousCommitMessage] keep the values they had before the
    run (as they do when no changes are found); they are assigned,
    to the document and the message of the run, only when the
    completion capability has returned a message. *)
Theorem previous_run_state_updated_only_on_success (w : World)
    (workspacePath : string) :
  let unchanged (w' : World) :=
    previousGitContext (this w') = previousGitContext (this w)
    /\ previousCommitMessage (this w') = previousCommitMessage (this w) in
  let assigned (w' : World) (gitContextString generatedMessage : string) :=
    previousGitContext (this w') = Some gitContextString
    /\ previousCommitMessage (this w') = Some generatedMessage in
  (let w' := snd (fst (generateCommitMessageForExternal workspacePath w)) in
   match run_outcome None workspacePath w with
   | GatheringThrew _ | ContextThrew _ | CompletionThrew _ | NoChanges =>
       unchanged w'
   | Generated gitContextString generatedMessage =>
       assigned w' gitContextString generatedMessage
   end)
  /\ (let w' := snd (fst (generateCommitMessageVsCode_task workspacePath w)) in
      match run_outcome (Some onDiffProgress) workspacePath w with
      | GatheringThrew _ | ContextThrew _ | CompletionThrew _ | NoChanges =>
          unchanged w'
      | Generated gitContextString generatedMessage =>
          assigned w' gitContextString generatedMessage
      end).
Proof.
  cbn zeta.
  rewrite generateCommitMessageForExternal_state,
    generateCommitMessageVsCode_task_state.
  pose proof (rebound_previous w workspacePath) as Hp.
  split.
  - by destruct (run_outcome None workspacePath w).
  - by destruct (run_outcome (Some onDiffProgress) workspacePath w).
Qed.

(** *** The prompt *)





Lemma buildCommitMessagePrompt_value gitContextString custom w :
  fst (fst (buildCommitMessagePrompt gitContextString custom w))
  = createCommitPrompt gitContextString
      (if shouldGenerateDifferentMessage (this w) gitContextString
       then <[COMMIT_MESSAGE :=
                differentMessagePrefix (interpolate (previousCommitMessage (this w)))
                +:+ supportPrompt_get custom COMMIT_MESSAGE
                +:+ finalReminder (interpolate (previousCommitMessage (this w)))]>
              custom
       else custom).
Proof.
  unfold buildCommitMessagePrompt, createCommitPrompt. run_M.
  destruct (truthy getWorkspacePath); run_M;
    [destruct (addCustomInstructions getWorkspacePath); run_M; [|done]|];
    by destruct (shouldGenerateDifferentMessage (this w) gitContextString).
Qed.



(** Repeat invocation: once a programmatic run has generated a message
    for a document, the prompt built for the same document embeds
    that message. *)
Lemma repeat_run_prompt w workspacePath gitContextString generatedMessage :
  run_outcome None workspacePath w = Generated gitContextString generatedMessage ->
  fst (fst (buildCommitMessagePrompt gitContextString customSupportPrompts
              (snd (fst (generateCommitMessageForExternal workspacePath w)))))
  = createCommitPrompt gitContextString
      (<[COMMIT_MESSAGE :=
           differentMessagePrefix generatedMessage
           +:+ supportPrompt_get customSupportPrompts COMMIT_MESSAGE
           +:+ finalReminder generatedMessage]> customSupportPrompts).
Proof.
  intros Hrun. rewrite generateCommitMessageForExternal_state, Hrun.
  rewrite buildCommitMessagePrompt_value.
  unfold shouldGenerateDifferentMessage, with_previous.
  cbn [this previousGitContext previousCommitMessage interpolate].
  by rewrite !bool_decide_eq_true_2.
Qed.


End WithHost.
End ProviderFacts.

(** ** The provider on concrete states *)
Module ProviderExamples.
Import JS JSFacts GitExtensionService CommitMessageProvider ProviderSpec Hosts
  ProviderHosts ProviderFacts.




(** Outside a repository both status queries fail, both calls to
    [gatherChanges] return the empty list, and the run reports that
    there are no changes. *)
Lemma staged_to_unstaged_fallback_witness :
  gather_calls
    (snd (@generateCommitMessageForExternal not_a_repository
            (@GitExtensionService_methods not_a_repository) plain_host
            "/repo" initial))
  = [true; false]
  /\ gather_calls
       (snd (@generateCommitMessageVsCode_task not_a_repository
               (@GitExtensionService_methods not_a_repository) plain_host
               "/repo" initial))
     = [true; false]
  /\ fst (fst (@generateCommitMessageForExternal not_a_repository
                 (@GitExtensionService_methods not_a_repository) plain_host
                 "/repo" initial))
     = Ok {| message := "";
             error := Some "No changes found to generate commit message" |}.
Proof.
  pose proof (@staged_to_unstaged_fallback not_a_repository
                (@GitExtensionService_methods not_a_repository) plain_host
                initial "/repo") as Hrun.
  cbn zeta in Hrun.
  change (bound_service initial "/repo")
    with (Some {| id := 0; root := "/repo" |}) in Hrun.
  destruct Hrun as (Hprogrammatic & Hinteractive & Hresult).
  split; [exact Hprogrammatic|]. split; [exact Hinteractive|].
  apply Hresult; reflexivity.
Defined.

(** C2 as stated fails for a run after [dispose()]: the provider is
    still bound to the root but holds no service, and neither call to
    [gatherChanges] is made. *)
Lemma fallback_skipped_after_dispose :
  let first := @generateCommitMessageForExternal two_files
                 (@GitExtensionService_methods two_files) plain_host
                 "/repo" initial in
  let disposed := @dispose two_files (snd (fst first)) in
  let second := @generateCommitMessageForExternal two_files
                  (@GitExtensionService_methods two_files) plain_host
                  "/repo" (snd (fst disposed)) in
  gather_calls (snd first) = [true]
  /\ fst (fst disposed) = Ok tt
  /\ gather_calls (snd second) = []
  /\ fst (fst second)
     = Ok {| message := ""; error := Some "Failed to initialize Git service" |}.
Proof. repeat split; vm_compute; reflexivity. Qed.

Lemma after_one_run_well_bound : well_bound after_one_run.
Proof. intros i [= <-]. split; [cbn; lia|reflexivity]. Qed.

(** Asked for another root, the provider disposes the evaluator of
    service 0 and then constructs service 1 for the new root. *)
Lemma workspace_root_binding_witness :
  well_bound after_one_run
  /\ gitService
       (this (snd (fst (@gatherGitChanges two_files
                          (@GitExtensionService_methods two_files)
                          "/other" after_one_run))))
     = Some {| id := 1; root := "/other" |}
  /\ lifecycle
       (snd (@gatherGitChanges two_files (@GitExtensionService_methods two_files)
               "/other" after_one_run))
     = [Disposed 0; Constructed 1 "/other"].
Proof.
  split; [exact after_one_run_well_bound|].
  pose proof (@workspace_root_binding two_files
                (@GitExtensionService_methods two_files)
                after_one_run "/other" after_one_run_well_bound)
    as (_ & _ & _ & Hnew).
  destruct Hnew as (Hsvc & _ & Hevents); [discriminate|].
  split; [exact Hsvc|exact Hevents].
Defined.

(** After [dispose()] the provider holds no service while it is still
    bound to its root: a run for that root stops at the guard of
    [gatherGitChanges] and gathers nothing. *)
Example disposed_provider_guard :
  @bound_service disposed "/repo" = None
  /\ @generateCommitMessageForExternal two_files
       (@GitExtensionService_methods two_files) plain_host "/repo" disposed
     = (Ok {| message := ""; error := Some "Failed to initialize Git service" |},
        disposed, []).
Proof. split; reflexivity. Qed.

(** Two runs in a row on the same document: the second prompt names
    the message of the first. *)
Example second_run_prompt :
  let first := @generateCommitMessageForExternal two_files
                 (@GitExtensionService_methods two_files) plain_host
                 "/repo" initial in
  let second := @generateCommitMessageForExternal two_files
                  (@GitExtensionService_methods two_files) plain_host
                  "/repo" (snd (fst first)) in
  fst (fst first) = Ok {| message := "feat: add new feature"; error := None |}
  /\ exists prompt,
       In (Completion prompt) (snd second)
       /\ includes "The previous message was: " prompt = true
       /\ includes "feat: add new feature" prompt = true.
Proof.
  split; [reflexivity|]. eexists. split.
  - vm_compute. do 3 right. left. reflexivity.
  - split; vm_compute; reflexivity.
Qed.

End ProviderExamples.

(** ** More on message post-processing *)
Module ExtractMore.
Import JS MessageSpec JSFacts StatusFacts ProviderSpec CommitMessageProvider.

#[local] Arguments is_ws : simpl never.
#[local] Arguments is_quote : simpl never.
#[local] Arguments is_lower : simpl never.
#[local] Arguments is_backtick : simpl never.

(** *** Lengths *)

Lemma length_trimStart s : String.length (trimStart s) <= String.length s.
Proof.
  induction s as [|c t IH]; [done|]. cbn [trimStart].
  destruct (is_ws c); cbn [String.length]; lia.
Qed.

Lemma length_trimEnd s : String.length (trimEnd s) <= String.length s.
Proof.
  induction s as [|c t IH]; [done|]. cbn [trimEnd].
  destruct (trimEnd t); [destruct (is_ws c)|]; cbn [String.length] in *; lia.
Qed.

Lemma length_replace_fences_from s :
  forall skip, String.length (replace_fences_from skip s) <= String.length s.
Proof.
  induction s as [|c t IH]; intros skip; [done|]. cbn [replace_fences_from].
  destruct skip as [|n].
  - destruct (fence_len (String c t)) as [[|n]|]; cbn [String.length];
      try (specialize (IH 0); lia); specialize (IH n); lia.
  - specialize (IH n). cbn [String.length]. lia.
Qed.

Lemma length_replace_edge_quotes_from s :
  forall at_start,
    String.length (replace_edge_quotes_from at_start s) <= String.length s.
Proof.
  induction s as [|c t IH]; intros at_start; [done|].
  cbn [replace_edge_quotes_from]. specialize (IH false).
  destruct (is_quote c && (at_start || is_empty t)); cbn [String.length]; lia.
Qed.

(** X1.  The extraction only removes characters: the message is never
    longer than the response it was extracted from. *)
Theorem extractCommitMessage_length (response : string) :
  String.length (extractCommitMessage response) <= String.length response.
Proof.
  unfold extractCommitMessage, trim, replace_fences, replace_edge_quotes.
  etransitivity; [apply length_trimEnd|].
  etransitivity; [apply length_trimStart|].
  etransitivity; [apply length_replace_edge_quotes_from|].
  etransitivity; [apply length_replace_fences_from|].
  etransitivity; [apply length_trimEnd|]. apply length_trimStart.
Qed.

(** *** Wrapping and unwrapping *)

Lemma quote_not_ws c : is_quote c = true -> is_ws c = false.
Proof.
  destruct c as [[] [] [] [] [] [] [] []]; vm_compute; congruence.
Qed.

(** A text without a fence whose last character is no backtick keeps
    apart from what follows it. *)
Lemma starts_fence_append c t r :
  starts_fence (String c t) = false ->
  (forall d, last_char (String c t) = Some d -> is_backtick d = false) ->
  starts_fence (String c (t +:+ r)) = false.
Proof.
  intros Hs Hl.
  destruct (is_backtick c) eqn:Ec; [|by apply starts_fence_not_backtick].
  destruct t as [|d t'].
  { rewrite (Hl c eq_refl) in Ec. done. }
  rewrite append_cons.
  destruct (is_backtick d) eqn:Ed.
  2:{ destruct (t' +:+ r); cbn; rewrite ?Ed, ?andb_false_r; done. }
  destruct t' as [|e t''].
  { cbn in Hl. rewrite (Hl d eq_refl) in Ed. done. }
  rewrite append_cons. cbn in Hs |- *. exact Hs.
Qed.

Lemma last_char_tail c t d :
  t <> EmptyString -> last_char t = Some d -> last_char (String c t) = Some d.
Proof. intros _ Hd. cbn [last_char]. by rewrite Hd. Qed.

Lemma replace_fences_append m r :
  has_fence m = false ->
  (forall d, last_char m = Some d -> is_backtick d = false) ->
  replace_fences (m +:+ r) = m +:+ replace_fences r.
Proof.
  unfold replace_fences. induction m as [|c t IH]; [done|].
  cbn [has_fence]. intros [Hs Hf]%orb_false_elim Hl.
  rewrite !append_cons.
  rewrite replace_fences_from_0_no_match by (by apply starts_fence_append).
  f_equal. apply IH; [done|]. intros d Hd. apply Hl.
  cbn [last_char]. by rewrite Hd.
Qed.

Lemma has_fence_append m r :
  has_fence m = false ->
  (forall d, last_char m = Some d -> is_backtick d = false) ->
  has_fence (m +:+ r) = has_fence r.
Proof.
  induction m as [|c t IH]; [done|].
  cbn [has_fence]. intros [Hs Hf]%orb_false_elim Hl.
  rewrite append_cons. cbn [has_fence].
  rewrite starts_fence_append by done. cbn [orb].
  apply IH; [done|]. intros d Hd. apply Hl. cbn [last_char]. by rewrite Hd.
Qed.

Lemma clean_last_not_backtick m :
  clean m -> forall d, last_char m = Some d -> is_backtick d = false.
Proof.
  intros (_ & _ & Hl) d Hd. destruct (is_backtick d) eqn:E; [|done].
  apply backtick_is_quote in E. rewrite (Hl d Hd) in E. done.
Qed.

Lemma tag_newline_len_tag tag rest :
  all_lower tag = true ->
  tag_newline_len (tag +:+ String LF rest) = Some (S (String.length tag)).
Proof.
  induction tag as [|c t IH]; [done|]. cbn [all_lower].
  intros [Hc Ht]%andb_prop. rewrite append_cons. cbn [tag_newline_len].
  by rewrite Hc, (IH Ht).
Qed.

Lemma replace_fences_from_tag tag rest :
  replace_fences_from (S (String.length tag)) (tag +:+ String LF rest)
  = replace_fences_from 0 rest.
Proof.
  induction tag as [|c t IH]; [done|].
  rewrite append_cons. cbn [String.length replace_fences_from]. exact IH.
Qed.

(** An opening fence with a lower-case tag is consumed up to its line
    break. *)
Lemma replace_fences_opening tag rest :
  all_lower tag = true ->
  replace_fences ("```" +:+ tag +:+ nl +:+ rest) = replace_fences rest.
Proof.
  intros Htag. unfold replace_fences.
  change (nl +:+ rest) with (String LF rest).
  change ("```" +:+ tag +:+ String LF rest)
    with (String "`" (String "`" (String "`" (tag +:+ String LF rest)))).
  cbn [replace_fences_from fence_len].
  replace (is_backtick "`") with true by reflexivity. cbn [andb].
  rewrite (tag_newline_len_tag tag rest Htag). cbn [Nat.add].
  apply replace_fences_from_tag.
Qed.

Lemma trimEnd_append_nl a : trimEnd (a +:+ nl) = trimEnd a.
Proof.
  induction a as [|c t IH]; [done|].
  rewrite append_cons. cbn [trimEnd]. by rewrite IH.
Qed.

Lemma clean_trimEnd m : clean m -> trimEnd m = m.
Proof.
  intros (Ht & _ & _). apply trimEnd_id. by apply trimmed_ends.
Qed.

Lemma trim_append_nl m : clean m -> trim (m +:+ nl) = m.
Proof.
  intros Hm. unfold trim. destruct m as [|c t] eqn:Em; [done|].
  rewrite <- Em in *. rewrite trimStart_id.
  - rewrite trimEnd_append_nl. by apply clean_trimEnd.
  - destruct Hm as (Ht & _ & _). intros x Hx.
    apply (proj1 (trimmed_ends m Ht)). subst m. exact Hx.
Qed.

(** X2.  Unwrapping a fenced block: a clean message without triple
    backticks that comes back inside a code fence, with or without a
    lower-case language tag, is extracted unchanged. *)
Theorem extractCommitMessage_unwraps_fence (tag m : string) :
  all_lower tag = true -> clean m -> has_fence m = false ->
  extractCommitMessage ("```" +:+ tag +:+ nl +:+ m +:+ nl +:+ "```") = m.
Proof.
  intros Htag Hm Hf. unfold extractCommitMessage.
  assert (trim ("```" +:+ tag +:+ nl +:+ m +:+ nl +:+ "```")
          = "```" +:+ tag +:+ nl +:+ m +:+ nl +:+ "```") as ->.
  { apply trim_id.
    - intros c [= <-]. reflexivity.
    - intros c.
      rewrite !last_char_append by (repeat apply append_nonempty; done).
      intros [= <-]. reflexivity. }
  rewrite (replace_fences_opening tag _ Htag).
  rewrite replace_fences_append by (done || by apply clean_last_not_backtick).
  change (replace_fences (nl +:+ "```")) with nl.
  rewrite replace_edge_quotes_id.
  - by apply trim_append_nl.
  - destruct Hm as (_ & Hfirst & _). destruct m as [|c t]; [by intros c [= <-]|].
    intros x [= <-]. by apply Hfirst.
  - intros c. rewrite last_char_append by done. by intros [= <-].
Qed.

Lemma extractCommitMessage_unwraps_fence_witness :
  all_lower "text" = true /\ clean quoted_word_message
  /\ has_fence quoted_word_message = false
  /\ extractCommitMessage ("```" +:+ "text" +:+ nl +:+ quoted_word_message
                           +:+ nl +:+ "```")
     = quoted_word_message.
Proof.
  assert (clean quoted_word_message) as Hc.
  { split; [reflexivity|]. split; intros c [= <-]; reflexivity. }
  split; [reflexivity|]. split; [exact Hc|]. split; [reflexivity|].
  apply (extractCommitMessage_unwraps_fence "text" quoted_word_message);
    [reflexivity|exact Hc|reflexivity].
Defined.

Lemma drop_trailing_quote_snoc m q :
  is_quote q = true -> drop_trailing_quote (m +:+ String q "") = m.
Proof.
  intros Hq. induction m as [|c t IH].
  { change (drop_trailing_quote (String q "") = ""). cbn. by rewrite Hq. }
  rewrite append_cons. cbn [drop_trailing_quote]. rewrite IH.
  by destruct t.
Qed.

(** X3.  Unwrapping quotes: a clean message without triple backticks
    that comes back between two quote or backtick characters is
    extracted unchanged. *)
Theorem extractCommitMessage_unwraps_quotes (q r : ascii) (m : string) :
  is_quote q = true -> is_quote r = true -> clean m -> has_fence m = false ->
  extractCommitMessage (String q (m +:+ String r "")) = m.
Proof.
  intros Hq Hr Hm Hf. unfold extractCommitMessage.
  assert (trim (String q (m +:+ String r "")) = String q (m +:+ String r "")) as ->.
  { apply trim_id.
    - intros c [= <-]. by apply quote_not_ws.
    - intros c. rewrite <- append_cons, last_char_append by done.
      intros [= <-]. by apply quote_not_ws. }
  assert (has_fence (String q (m +:+ String r "")) = false) as Hwhole.
  { cbn [has_fence]. rewrite has_fence_append
      by (done || by apply clean_last_not_backtick).
    rewrite orb_false_r.
    destruct m as [|c t]; [reflexivity|].
    rewrite append_cons. destruct Hm as (_ & Hfirst & _).
    assert (is_backtick c = false) as Hc.
    { destruct (is_backtick c) eqn:E; [|done].
      apply backtick_is_quote in E. rewrite (Hfirst c eq_refl) in E. done. }
    destruct (t +:+ String r ""); cbn; rewrite ?Hc, ?andb_false_r; done. }
  rewrite (replace_fences_id _ Hwhole), replace_edge_quotes_ends.
  cbn [drop_leading_quote]. rewrite Hq, (drop_trailing_quote_snoc m r Hr).
  by destruct Hm.
Qed.

Lemma extractCommitMessage_unwraps_quotes_witness :
  is_quote "'" = true /\ clean quoted_word_message
  /\ has_fence quoted_word_message = false
  /\ extractCommitMessage (String "'" (quoted_word_message +:+ String "'" ""))
     = quoted_word_message.
Proof.
  assert (clean quoted_word_message) as Hc.
  { split; [reflexivity|]. split; intros c [= <-]; reflexivity. }
  split; [reflexivity|]. split; [exact Hc|]. split; [reflexivity|].
  apply (extractCommitMessage_unwraps_quotes "'" "'" quoted_word_message);
    [reflexivity|reflexivity|exact Hc|reflexivity].
Defined.

(** X4.  A response made of white space only gives the empty message. *)
Theorem extractCommitMessage_blank (response : string) :
  all_ws response = true -> extractCommitMessage response = "".
Proof.
  intros Hb. unfold extractCommitMessage, trim.
  by rewrite (trimStart_all_ws response Hb).
Qed.

Lemma extractCommitMessage_blank_witness :
  all_ws (" " +:+ nl) = true /\ extractCommitMessage (" " +:+ nl) = "".
Proof.
  split; [reflexivity|]. apply (extractCommitMessage_blank (" " +:+ nl)).
  reflexivity.
Defined.

End ExtractMore.

(** ** More on the git service *)
Module ServiceMore.
Import JS JSFacts GitExtensionService EffM StatusSpec ServiceSpec FilterSpec Hosts
  StatusFacts ContextFacts.

(** *** Status codes *)

Lemma getChangeStatusFromCode_in_statuses code :
  In (getChangeStatusFromCode code) statuses.
Proof.
  unfold getChangeStatusFromCode, statuses.
  repeat match goal with
         | |- context [String.eqb code ?a] => destruct (String.eqb code a)
         end; cbn; tauto.
Qed.

(** X5.  Every status returned is one of the eight fixed names; a code
    gives [Unknown] exactly when it is none of the seven recognised
    codes; and two recognised codes with the same status are the same
    code. *)
Theorem getChangeStatusFromCode_table_facts :
  (forall code, In (getChangeStatusFromCode code) statuses)
  /\ (forall code, getChangeStatusFromCode code = "Unknown" <-> ~ In code statusCodes)
  /\ (forall a b, In a statusCodes -> In b statusCodes ->
                  getChangeStatusFromCode a = getChangeStatusFromCode b -> a = b).
Proof.
  split; [|split].
  - apply getChangeStatusFromCode_in_statuses.
  - intros code. unfold getChangeStatusFromCode, statusCodes.
    repeat match goal with
           | |- context [String.eqb code ?a] =>
               destruct (String.eqb_spec code a) as [->|?]
           end; cbn; split; try discriminate; try tauto.
    intros _. intuition congruence.
  - intros a b Ha Hb. cbn in Ha, Hb.
    repeat (destruct Ha as [<-|Ha]; [|]); try done;
      repeat (destruct Hb as [<-|Hb]; [|]); try done; vm_compute; congruence.
Qed.

Section WithHost.
Context `{GitHost}.

(** *** Gathering changes *)

(** X6.  [gatherChanges] never throws.  When the status query cannot
    be launched or exits with a status other than 0, it returns the
    empty list and logs one error that tells staged from unstaged. *)
Theorem gatherChanges_degrades (this : Service) (options : GitProgressOptions) :
  (exists changes l, gatherChanges this options = (Ok changes, l))
  /\ (let r := spawnSync (workspaceRoot this) (statusArgs (staged options)) in
      error r <> None \/ exit_status r <> Some 0%Z ->
      gatherChanges this options
      = (Ok [], [ConsoleError ("Error gathering " +:+ changeType (staged options)
                               +:+ " changes:")])).
Proof.
  split.
  - apply try_catch_total. intros e. by eexists _, _.
  - cbn zeta. intros Hfail.
    assert (exists e, getStatus this (staged options) = Throw e) as [e He].
    { unfold getStatus, spawnGitWithArgs. fold (statusArgs (staged options)).
      destruct (error (spawnSync _ _)) as [e|]; [by eauto|].
      destruct Hfail as [?|Hst]; [done|].
      rewrite (bool_decide_eq_false_2 _ Hst). cbn. eauto. }
    unfold gatherChanges. rewrite He. reflexivity.
Qed.

(** X7.  Every Change returned by [gatherChanges] carries one of the
    eight fixed statuses and a path made by joining the workspace
    root with a relative path. *)
Theorem gatherChanges_wellformed (this : Service) (options : GitProgressOptions) :
  exists changes,
    fst (gatherChanges this options) = Ok changes
    /\ Forall (fun change =>
                 In (status change) statuses
                 /\ exists relative,
                      filePath change = path_join (workspaceRoot this) relative)
              changes.
Proof.
  unfold gatherChanges.
  destruct (getStatus this (staged options)) as [out|e]; cbn;
    [|by exists []].
  destruct (truthy (trim out)); cbn; [|by exists []].
  eexists. split; [reflexivity|].
  rewrite gatherChanges_loop_spec. cbn [app].
  apply List.Forall_forall. intros change [line [<- _]]%in_map_iff.
  split; [|by eexists].
  cbn [status change_of_line]. rewrite <- getChangeStatusFromCode_table.
  apply getChangeStatusFromCode_in_statuses.
Qed.

(** *** The diff section when every command succeeds *)

Lemma progress_reports_app l1 l2 :
  progress_reports (l1 ++ l2) = progress_reports l1 ++ progress_reports l2.
Proof.
  induction l1 as [|entry l1 IH]; [done|]. destruct entry; cbn; by rewrite ?IH.
Qed.

Lemma isValidFile_allowed this filePath :
  exists l, isValidFile this filePath = (Ok (allowed this filePath), l)
            /\ progress_reports l = [].
Proof.
  unfold isValidFile, allowed. destruct (ignoreController this); [|by eexists].
  destruct (validateAccess _ _); cbn; by eexists.
Qed.

Lemma getDiffForChanges_loop_success this options total files :
  (forall f, In f files -> included this f = true ->
             exists d, getGitDiff this f (staged options) = Ok d) ->
  (forall callback n t, onProgress options = Some callback -> callback n t = Ok tt) ->
  forall processedFiles diffs,
    exists log,
      getDiffForChanges_loop this options total files processedFiles diffs
      = (Ok (diffs ++ List.map (diffText this (staged options))
                        (List.filter (included this) files)), log)
      /\ progress_reports log
         = reports_from options total processedFiles (length files).
Proof.
  intros Hdiff Hcb. induction files as [|file rest IH]; intros processedFiles diffs.
  - exists []. split; [by rewrite app_nil_r|].
    unfold reports_from. by repeat case_match.
  - destruct (isValidFile_allowed this file) as (l0 & Hv & Hl0).
    destruct (IH (fun f Hf => Hdiff f (or_intror Hf)) (S processedFiles)
                (diffs ++ (if included this file
                           then [diffText this (staged options) file] else [])))
      as (log & Hloop & Hlog).
    assert (exists l1,
              (run match onProgress options with
                   | Some callback =>
                       if 0 <? total
                       then run lift (callback (S processedFiles) total) in
                            emit (Progress (S processedFiles) total)
                       else ret tt
                   | None => ret tt
                   end in
               getDiffForChanges_loop this options total rest (S processedFiles)
                 (diffs ++ (if included this file
                            then [diffText this (staged options) file] else [])))%eff
              = (Ok (diffs ++ List.map (diffText this (staged options))
                                (List.filter (included this) (file :: rest))), l1)
              /\ progress_reports l1
                 = reports_from options total processedFiles (length (file :: rest)))
      as (l1 & Hrest & Hl1).
    { rewrite Hloop. unfold reports_from in *. cbn [List.filter length seq List.map].
      destruct (onProgress options) as [callback|] eqn:Hp.
      - destruct (0 <? total).
        + rewrite (Hcb callback _ _ eq_refl). cbn.
          eexists. split.
          * destruct (included this file); by rewrite <- ?app_assoc, ?app_nil_r.
          * cbn. by rewrite Hlog.
        + cbn. eexists. split.
          * destruct (included this file); by rewrite <- ?app_assoc, ?app_nil_r.
          * exact Hlog.
      - cbn. eexists. split.
        + destruct (included this file); by rewrite <- ?app_assoc, ?app_nil_r.
        + exact Hlog. }
    cbn [getDiffForChanges_loop]. rewrite Hv, bind_pair.
    fold (included this file).
    destruct (included this file) eqn:Hinc.
    + destruct (Hdiff file (or_introl eq_refl) Hinc) as [d Hd].
      rewrite Hd, bind_assoc_lift, bind_ret_l.
      unfold diffText in Hrest at 1. rewrite Hd in Hrest. rewrite Hrest.
      eexists. split; [reflexivity|].
      cbn [snd]. by rewrite progress_reports_app, Hl0, Hl1.
    + rewrite bind_ret_l, app_nil_r in *. rewrite Hrest.
      eexists. split; [reflexivity|].
      cbn [snd]. by rewrite progress_reports_app, Hl0, Hl1.
Qed.

(** X8.  When the names-only listing and the single-file diffs of the
    included files succeed and the progress callback does not throw,
    the body of the diff section is the trimmed diffs of the included
    files, in the order of the listing, joined by line breaks.  A
    file is included when the access filter allows it (also when the
    evaluator throws) and it is no lock file; the diff command of an
    excluded file is never needed. *)
Theorem getDiffForChanges_joins_included (this : Service)
    (options : GitProgressOptions) (listing : string) :
  spawnGitWithArgs this (nameOnlyArgs (staged options)) = Ok listing ->
  (forall f, In f (listedFiles listing) -> included this f = true ->
             exists d, getGitDiff this f (staged options) = Ok d) ->
  (forall callback n t, onProgress options = Some callback -> callback n t = Ok tt) ->
  fst (getDiffForChanges this options)
  = Ok (join nl (List.map (diffText this (staged options))
                   (List.filter (included this) (listedFiles listing)))).
Proof.
  intros Hlist Hdiff Hcb. unfold getDiffForChanges. rewrite Hlist. cbn [lift bind].
  destruct (getDiffForChanges_loop_success this options
              (length (listedFiles listing)) (listedFiles listing) Hdiff Hcb 0 [])
    as (log & -> & _).
  reflexivity.
Qed.

(** X9.  Under the same conditions, a progress callback is called once
    per listed file, included or not, with the counts 1 of n up to n of
    n; without a callback nothing is reported. *)
Theorem getDiffForChanges_progress (this : Service)
    (options : GitProgressOptions) (listing : string) :
  spawnGitWithArgs this (nameOnlyArgs (staged options)) = Ok listing ->
  (forall f, In f (listedFiles listing) -> included this f = true ->
             exists d, getGitDiff this f (staged options) = Ok d) ->
  (forall callback n t, onProgress options = Some callback -> callback n t = Ok tt) ->
  let n := length (listedFiles listing) in
  progress_reports (snd (getDiffForChanges this options))
  = match onProgress options with
    | Some _ => List.map (fun i => (i, n)) (seq 1 n)
    | None => []
    end.
Proof.
  intros Hlist Hdiff Hcb n. unfold getDiffForChanges. rewrite Hlist. cbn [lift bind].
  destruct (getDiffForChanges_loop_success this options n (listedFiles listing)
              Hdiff Hcb 0 []) as (log & Hloop & Hlog).
  fold n. rewrite Hloop. cbn. rewrite app_nil_r, Hlog. unfold reports_from.
  destruct (onProgress options); [|done].
  destruct (0 <? n) eqn:Hn; [done|].
  apply Nat.ltb_ge in Hn. by replace n with 0 by lia.
Qed.

(** *** The layout of the document *)

(** X10.  The document always has the same layout: the header, the
    diff section, the statistical summary (its placeholder when the
    command fails), the "Repository Context" heading, then the current
    branch and the recent commits, each left out when its command
    fails or prints nothing.  The fixed "error generating context"
    notice is never returned. *)
Theorem getCommitContext_layout (this : Service) (changes : list GitChange)
    (options : GitProgressOptions) :
  exists diff,
    fst (getDiffForChanges this options) = Ok diff
    /\ fst (getCommitContext this changes options)
       = Ok (contextHeader +:+ diffSection (staged options) diff
             +:+ summarySection
                   (match getSummary this (staged options) with
                    | Ok summary => summary
                    | Throw _ => noSummaryAvailable
                    end)
             +:+ repositoryContextHeading
             +:+ match getCurrentBranch this with
                 | Ok currentBranch =>
                     if truthy currentBranch then branchSection currentBranch else ""
                 | Throw _ => ""
                 end
             +:+ match getRecentCommits this 5 with
                 | Ok recentCommits =>
                     if truthy recentCommits then commitsSection recentCommits else ""
                 | Throw _ => ""
                 end)
    /\ fst (getCommitContext this changes options) <> Ok errorContext.
Proof.
  destruct (getDiffForChanges_total this options) as (diff & l & Hd).
  exists diff. rewrite getCommitContext_unfold, Hd. cbn [fst].
  split; [done|]. split; [done|].
  intros [= Heq].
Qed.

End WithHost.

Lemma gatherChanges_degrades_witness :
  (error (@spawnSync not_a_repository repo_root (statusArgs true)) <> None
   \/ exit_status (@spawnSync not_a_repository repo_root (statusArgs true))
      <> Some 0%Z)
  /\ @gatherChanges not_a_repository (@new not_a_repository repo_root) staged_only
     = (Ok [], [ConsoleError "Error gathering staged changes:"]).
Proof.
  assert (error (@spawnSync not_a_repository repo_root (statusArgs true)) <> None
          \/ exit_status (@spawnSync not_a_repository repo_root (statusArgs true))
             <> Some 0%Z) as Hfail by (right; discriminate).
  split; [exact Hfail|].
  exact (proj2 (@gatherChanges_degrades not_a_repository
                  (@new not_a_repository repo_root) staged_only) Hfail).
Defined.

Lemma unreadable_rules_diffs_available (options : GitProgressOptions) :
  staged options = true ->
  forall f,
    In f (listedFiles ("a.ts" +:+ nl +:+ "b.ts" +:+ nl)) ->
    @included unreadable_rules (@new unreadable_rules repo_root) f = true ->
    exists d, @getGitDiff unreadable_rules (@new unreadable_rules repo_root) f
                (staged options) = Ok d.
Proof.
  intros -> f [<-|[<-|[]]] _; eexists; reflexivity.
Qed.

Lemma getDiffForChanges_joins_included_witness :
  @spawnGitWithArgs unreadable_rules (@new unreadable_rules repo_root)
    (nameOnlyArgs true) = Ok ("a.ts" +:+ nl +:+ "b.ts" +:+ nl)
  /\ fst (@getDiffForChanges unreadable_rules (@new unreadable_rules repo_root)
            staged_only)
     = Ok "diff --git a/a.ts b/a.ts".
Proof.
  split; [reflexivity|].
  refine (@getDiffForChanges_joins_included unreadable_rules
            (@new unreadable_rules repo_root) staged_only
            ("a.ts" +:+ nl +:+ "b.ts" +:+ nl) _ _ _).
  - reflexivity.
  - apply unreadable_rules_diffs_available. reflexivity.
  - intros callback n t Hcb. discriminate Hcb.
Defined.

Lemma getDiffForChanges_progress_witness :
  @spawnGitWithArgs unreadable_rules (@new unreadable_rules repo_root)
    (nameOnlyArgs true) = Ok ("a.ts" +:+ nl +:+ "b.ts" +:+ nl)
  /\ progress_reports
       (snd (@getDiffForChanges unreadable_rules (@new unreadable_rules repo_root)
               staged_with_progress))
     = [(1, 2); (2, 2)].
Proof.
  split; [reflexivity|].
  refine (@getDiffForChanges_progress unreadable_rules
            (@new unreadable_rules repo_root) staged_with_progress
            ("a.ts" +:+ nl +:+ "b.ts" +:+ nl) _ _ _).
  - reflexivity.
  - apply unreadable_rules_diffs_available. reflexivity.
  - intros callback n t [= <-]. reflexivity.
Defined.

End ServiceMore.

(** ** More on the provider *)
Module ProviderMore.
Import JS JSFacts GitExtensionService CommitMessageProvider CommitMessageProvider.M
  ProviderSpec Hosts ProviderHosts ProviderFacts.

Section WithHost.
Context `{GitHost} `{GitServiceMethods} `{ProviderHost}.

(** *** The configuration used for the completion *)

(** X11.  [configToUse] never throws and leaves the provider as it is.
    It returns the dedicated profile exactly when its id is set and
    not empty, is still among the known configurations, loads, and
    names a provider; in every other case (also when the profile fails
    to load) it returns the active configuration.  An id that is no
    longer listed is ignored without consulting the profile store. *)
Theorem configToUse_selection (w : World) :
  exists config l,
    configToUse w = (Ok config, w, l)
    /\ (forall configId dedicated name,
           commitMessageApiConfigId = Some configId -> configId <> "" ->
           In configId listApiConfigMeta ->
           getProfile configId = Ok dedicated ->
           apiProvider dedicated = Some name -> name <> "" ->
           config = dedicated)
    /\ (config <> getProviderSettings ->
        exists configId name,
          commitMessageApiConfigId = Some configId /\ configId <> ""
          /\ In configId listApiConfigMeta
          /\ getProfile configId = Ok config
          /\ apiProvider config = Some name /\ name <> "")
    /\ (forall configId,
           commitMessageApiConfigId = Some configId ->
           ~ In configId listApiConfigMeta ->
           config = getProviderSettings /\ l = []).
Proof.
  assert (forall s, truthy s = true <-> s <> "") as Htruthy
    by (intros [|??]; cbn; split; congruence).
  assert (forall configId,
             existsb (fun id => String.eqb id configId) listApiConfigMeta = true
             <-> In configId listApiConfigMeta) as Hlisted.
  { intros configId. rewrite existsb_exists. split.
    - intros (x & Hx & ->%String.eqb_eq). done.
    - intros Hin. exists configId. by rewrite String.eqb_refl. }
  unfold configToUse. run_M.
  destruct commitMessageApiConfigId as [configId|]; run_M;
    [destruct (truthy configId) eqn:Ht; cbn [andb];
     [destruct (existsb _ listApiConfigMeta) eqn:Hl;
      [destruct (getProfile configId) as [dedicated|e] eqn:Hp; run_M;
       [destruct (apiProvider dedicated) as [name|] eqn:Ha; run_M;
        [destruct (truthy name) eqn:Hn; run_M|]|]|]|]|];
    (eexists _, _; split; [reflexivity|]; split; [|split]);
    try (intros configId' dedicated' name' Hid Hne Hin Hprof Hprov Hname;
         simplify_eq;
         try apply Htruthy in Hne; try apply Hlisted in Hin;
         try apply Htruthy in Hname; congruence);
    try (intros configId' Hid Hnot; simplify_eq;
         try apply Hlisted in Hl; done);
    try (intros Hne; done).
  intros _. apply Htruthy in Ht, Hn. apply Hlisted in Hl. by exists configId, name.
Qed.

(** *** Disposal *)

(** X12.  [dispose] releases the evaluator of the service held, if
    any, and forgets the service, but keeps the bound root and the
    fields of the previous run; disposing again does nothing. *)
Theorem dispose_idempotent (w : World) :
  let w1 := snd (fst (dispose w)) in
  dispose w
  = (Ok tt, w1, match gitService (this w) with
                | Some svc => [Disposed (id svc)]
                | None => []
                end)
  /\ gitService (this w1) = None
  /\ currentWorkspaceRoot (this w1) = currentWorkspaceRoot (this w)
  /\ previousGitContext (this w1) = previousGitContext (this w)
  /\ previousCommitMessage (this w1) = previousCommitMessage (this w)
  /\ dispose w1 = (Ok tt, w1, []).
Proof.
  unfold dispose. run_M. destruct (gitService (this w)); run_M; by repeat split.
Qed.

(** X13.  After [dispose] a run for the root the provider is still
    bound to stops at the guard of [gatherGitChanges]: the
    programmatic workflow resolves to the error "Failed to initialize
    Git service", gathers nothing and constructs nothing.  A run for
    any other root constructs one new service for that root, holds it
    afterwards, and gathers with it, staged changes first. *)
Theorem run_after_dispose (w : World) (workspacePath : string) :
  currentWorkspaceRoot (this w) = Some workspacePath ->
  let w1 := snd (fst (dispose w)) in
  generateCommitMessageForExternal workspacePath w1
  = (Ok {| message := ""; error := Some "Failed to initialize Git service" |}, w1, [])
  /\ (forall other,
         other <> workspacePath ->
         let elsewhere := generateCommitMessageForExternal other w1 in
         lifecycle (snd elsewhere) = [Constructed (constructed w) other]
         /\ gitService (this (snd (fst elsewhere)))
            = Some {| id := constructed w; root := other |}
         /\ exists calls, gather_calls (snd elsewhere) = true :: calls).
Proof.
  intros Hroot. cbn zeta.
  assert (snd (fst (dispose w))
          = {| this := {| gitService := None;
                          previousGitContext := previousGitContext (this w);
                          previousCommitMessage := previousCommitMessage (this w);
                          targetRepository := targetRepository (this w);
                          currentWorkspaceRoot := Some workspacePath |};
               constructed := constructed w |}) as ->.
  { unfold dispose. run_M. rewrite <- Hroot.
    destruct (gitService (this w)); run_M; reflexivity. }
  split.
  - unfold generateCommitMessageForExternal, gatherGitChanges. run_M.
    rewrite bool_decide_eq_true_2 by done. reflexivity.
  - intros other Hne.
    match goal with
    | |- context [generateCommitMessageForExternal other ?w0] => set (w1 := w0)
    end.
    assert (bound_service w1 other = Some {| id := constructed w; root := other |})
      as Hbound.
    { unfold bound_service, w1. cbn.
      rewrite bool_decide_eq_false_2 by congruence. reflexivity. }
    destruct (generateCommitMessageForExternal_after_gathering other w1)
      as (rest & -> & Hcalls & Hlife).
    split; [|split].
    + rewrite lifecycle_app, Hlife, app_nil_r, gatherGitChanges_lifecycle.
      unfold rebinding, w1. cbn.
      rewrite bool_decide_eq_false_2 by congruence. reflexivity.
    + rewrite generateCommitMessageForExternal_state.
      rewrite <- Hbound, <- rebound_service.
      by destruct (run_outcome None other w1).
    + rewrite gather_calls_app, Hcalls, app_nil_r.
      rewrite (gatherGitChanges_calls w1 other _ Hbound). eauto.
Qed.

(** *** Reuse of the service *)

(** X14.  Once [gatherGitChanges] has run for a root, running it again
    for the same root keeps the provider as it is and neither
    constructs nor disposes a service. *)
Theorem gatherGitChanges_reuses_service (w : World) (workspacePath : string) :
  let w1 := snd (fst (gatherGitChanges workspacePath w)) in
  snd (fst (gatherGitChanges workspacePath w1)) = w1
  /\ lifecycle (snd (gatherGitChanges workspacePath w1)) = [].
Proof.
  cbn zeta. rewrite !gatherGitChanges_state, gatherGitChanges_lifecycle.
  assert (currentWorkspaceRoot (this (rebound w workspacePath)) = Some workspacePath)
    as Hb by (unfold rebound; by case_bool_decide).
  unfold rebound at 1, rebinding. by rewrite !bool_decide_eq_true_2.
Qed.

(** *** The target repository *)

Lemma find_repository_find resourceUri repositories :
  find_repository resourceUri repositories
  = List.find (matches_resource resourceUri) repositories.
Proof.
  induction repositories as [|repo rest IH]; [done|].
  cbn [find_repository List.find]. unfold matches_resource at 1.
  destruct (rootUri repo) as [repoRoot|], resourceUri as [resource|];
    rewrite ?IH; done.
Qed.

Lemma determineTargetRepository_total resourceUri w :
  exists target l, determineTargetRepository resourceUri w = (Ok target, w, l).
Proof.
  unfold determineTargetRepository. run_M.
  repeat (case_match; run_M; cbn [negb] in *); simplify_eq; by eexists _, _.
Qed.

(** X15.  [determineTargetRepository] never throws and leaves the
    provider as it is.  With an active git extension whose API
    answers, it returns the first repository whose root is a prefix of
    the resource path and, when there is none (or no resource), the
    first repository of the list; the repository returned is always
    one of the list.  Without the extension, with an inactive one, or
    when asking it throws, it returns nothing. *)
Theorem determineTargetRepository_selects (resourceUri : option string) (w : World) :
  exists target l,
    determineTargetRepository resourceUri w = (Ok target, w, l)
    /\ (forall extension repositories,
           vscode_git = Ok (Some extension) -> isActive extension = true ->
           getAPI extension = Ok repositories ->
           target = match List.find (matches_resource resourceUri) repositories with
                    | Some repo => Some repo
                    | None => head repositories
                    end
           /\ (forall repo, target = Some repo -> In repo repositories))
    /\ ((forall extension,
            vscode_git = Ok (Some extension) ->
            isActive extension = false \/ exists e, getAPI extension = Throw e) ->
        target = None).
Proof.
  unfold determineTargetRepository. run_M.
  destruct vscode_git as [[extension|]|e] eqn:Hext; run_M.
  - destruct (isActive extension) eqn:Hact; run_M.
    + destruct (getAPI extension) as [repositories|e] eqn:Hapi; run_M.
      * rewrite find_repository_find. cbn [negb].
        destruct (List.find (matches_resource resourceUri) repositories)
          as [found|] eqn:Hfind; run_M;
          (eexists _, _; split; [reflexivity|]; split;
           [|intros Hno; destruct (Hno extension eq_refl) as [?|[e ?]]; congruence]);
          intros ? ? [= <-] _ Hapi'; rewrite Hapi in Hapi'; injection Hapi' as <-;
          rewrite Hfind; (split; [done|]).
        -- intros repo [= <-]. by apply List.find_some in Hfind as [? _].
        -- destruct repositories; [done|]. intros repo [= <-]. by left.
      * cbn [negb]. eexists _, _. split; [reflexivity|]. split; [|done].
        intros ? ? [= <-] _ Hapi'. congruence.
    + cbn [negb]. eexists _, _. split; [reflexivity|]. split; [|done].
      intros ? ? [= <-] ?. congruence.
  - eexists _, _. split; [reflexivity|]. split; [|done]. intros ? ? [=].
  - eexists _, _. split; [reflexivity|]. split; [|done]. intros ? ? [=].
Qed.

(** X16.  When no repository root can be determined the interactive
    entry point throws "Could not determine Git repository" before
    anything else happens: the provider is unchanged, no service is
    constructed, no changes are gathered and nothing is delivered. *)
Theorem generateCommitMessageVsCode_no_repository
    (vsRequest : option VscGenerationRequest) (w : World)
    (target : option VscGenerationRequest) :
  fst (fst (determineTargetRepository (vsRequest ≫= rootUri) w)) = Ok target ->
  target ≫= rootUri = None ->
  fst (fst (generateCommitMessageVsCode vsRequest w))
  = Throw "Could not determine Git repository"
  /\ snd (fst (generateCommitMessageVsCode vsRequest w)) = w
  /\ lifecycle (snd (generateCommitMessageVsCode vsRequest w)) = []
  /\ gather_calls (snd (generateCommitMessageVsCode vsRequest w)) = []
  /\ deliveries (snd (generateCommitMessageVsCode vsRequest w)) = [].
Proof.
  intros Htarget Hnone.
  destruct (determineTargetRepository_total (vsRequest ≫= rootUri) w)
    as (target' & l & Hd).
  rewrite Hd in Htarget. cbn [fst] in Htarget. injection Htarget as ->.
  assert (l = [] \/ l = [Logged (ConsoleError "Error determining target repository:")])
    as Hl.
  { revert Hd. unfold determineTargetRepository. run_M.
    repeat (case_match; run_M); intros; simplify_eq; auto. }
  assert (generateCommitMessageVsCode vsRequest w
          = (Throw "Could not determine Git repository", w, l)) as ->.
  { unfold generateCommitMessageVsCode. unfold bind at 1.
    rewrite Hd, Hnone. run_M. by rewrite app_nil_r. }
  cbn [fst snd]. by destruct Hl as [-> | ->].
Qed.

(** *** Delivery *)

(** X17.  [setCommitMessage] hands the message to exactly one sink and
    leaves the provider as it is: the input box of the target
    repository when there is one, the clipboard otherwise.  When the
    clipboard cannot be written, nothing is delivered and the error
    thrown is "Failed to set commit message", whatever the clipboard
    reported. *)
Theorem setCommitMessage_delivers (text : string) (w : World) :
  snd (fst (setCommitMessage text w)) = w
  /\ match fst (fst (setCommitMessage text w)) with
     | Ok _ =>
         deliveries (snd (setCommitMessage text w)) = [text]
         /\ (In (SetInputBox text) (snd (setCommitMessage text w))
             <-> targetRepository (this w) <> None)
     | Throw e =>
         e = "Failed to set commit message"
         /\ deliveries (snd (setCommitMessage text w)) = []
         /\ targetRepository (this w) = None
         /\ exists clipboardError, clipboard_writeText text = Throw clipboardError
     end.
Proof.
  unfold setCommitMessage, copyToClipboardFallback. run_M.
  destruct (targetRepository (this w)) as [target|]; run_M.
  - split; [done|]. split; [done|]. split; [done|]. intros _. by left.
  - destruct (clipboard_writeText text) as [[]|e]; run_M.
    + split; [done|]. split; [done|]. split; [|done].
      intros [?|[?|[]]]; discriminate.
    + split; [done|]. repeat split; eauto.
Qed.

(** *** What the steps of a run emit *)

Lemma deliveries_app l1 l2 : deliveries (l1 ++ l2) = deliveries l1 ++ deliveries l2.
Proof. induction l1 as [|ev l1 IH]; [done|]. destruct ev; cbn; by rewrite ?IH. Qed.

Lemma shown_errors_app l1 l2 :
  shown_errors (l1 ++ l2) = shown_errors l1 ++ shown_errors l2.
Proof. induction l1 as [|ev l1 IH]; [done|]. destruct ev; cbn; by rewrite ?IH. Qed.

Lemma completions_app l1 l2 :
  completions (l1 ++ l2) = completions l1 ++ completions l2.
Proof. induction l1 as [|ev l1 IH]; [done|]. destruct ev; cbn; by rewrite ?IH. Qed.

Lemma logged_silent (l : list Log) :
  deliveries (List.map Logged l) = [] /\ shown_errors (List.map Logged l) = []
  /\ completions (List.map Logged l) = [].
Proof. by induction l. Qed.

Lemma silent_app l1 l2 : silent l1 -> silent l2 -> silent (l1 ++ l2).
Proof.
  intros (H1a & H1b & H1c) (H2a & H2b & H2c). unfold silent.
  by rewrite deliveries_app, shown_errors_app, completions_app,
    H1a, H1b, H1c, H2a, H2b, H2c.
Qed.

Lemma silent_logged (l : list Log) : silent (List.map Logged l).
Proof. apply logged_silent. Qed.

Lemma gatherGitChanges_silent workspacePath w :
  silent (snd (gatherGitChanges workspacePath w)).
Proof.
  rewrite gatherGitChanges_unfold. cbn zeta.
  assert (silent (rebinding w workspacePath)) as Hr.
  { unfold rebinding. case_bool_decide; [done|]. by destruct (gitService (this w)). }
  repeat (case_match; cbn [fst snd]); try done;
    apply silent_app; try done;
    repeat (apply (silent_app [_]); [done|]);
    repeat (apply silent_app; [apply silent_logged|]);
    repeat (apply (silent_app [_]); [done|]);
    apply silent_logged.
Qed.

Lemma gitService_getCommitContext_silent changes options w :
  silent (snd (gitService_getCommitContext changes options w)).
Proof.
  unfold gitService_getCommitContext. run_M.
  destruct (gitService (this w)); run_M; [|done].
  apply (silent_app [_]); [done|]. rewrite ?app_nil_r. apply silent_logged.
Qed.

(** The completion is called at most once, with nothing delivered or
    shown, and the message returned is an extracted response. *)
Lemma callAIForCommitMessage_events gitContextString w :
  deliveries (snd (callAIForCommitMessage gitContextString w)) = []
  /\ shown_errors (snd (callAIForCommitMessage gitContextString w)) = []
  /\ length (completions (snd (callAIForCommitMessage gitContextString w))) <= 1
  /\ forall generatedMessage,
       fst (fst (callAIForCommitMessage gitContextString w)) = Ok generatedMessage ->
       exists response, generatedMessage = extractCommitMessage response.
Proof.
  unfold callAIForCommitMessage, configToUse, buildCommitMessagePrompt. run_M.
  repeat (case_match; run_M); simplify_eq; cbn;
    (split; [done|]; split; [done|]; split; [lia|]);
    intros m Hm; simplify_eq; eauto.
Qed.

(** *** The programmatic entry point *)

(** The events of a programmatic run, step by step. *)
Lemma generateCommitMessageForExternal_events workspacePath w :
  deliveries (snd (generateCommitMessageForExternal workspacePath w)) = []
  /\ shown_errors (snd (generateCommitMessageForExternal workspacePath w)) = []
  /\ length (completions (snd (generateCommitMessageForExternal workspacePath w))) <= 1
  /\ match run_outcome None workspacePath w with
     | GatheringThrew _ | NoChanges | ContextThrew _ =>
         completions (snd (generateCommitMessageForExternal workspacePath w)) = []
     | _ => True
     end.
Proof.
  unfold run_outcome.
  remember (generateCommitMessageForExternal workspacePath w) as r eqn:Hr.
  revert Hr. unfold generateCommitMessageForExternal.
  unfold try_catch, bind at 1.
  pose proof (gatherGitChanges_silent workspacePath w) as (Hg1 & Hg2 & Hg3).
  destruct (gatherGitChanges workspacePath w) as [[[[changes staged]|e] w1] l1];
    cbn [snd] in Hg1, Hg2, Hg3.
  2:{ run_M. intros ->. cbn [fst snd].
      rewrite ?app_nil_r, Hg1, Hg2, Hg3. cbn. repeat split; lia. }
  destruct (length changes =? 0).
  { run_M. intros ->. cbn [fst snd].
    rewrite ?app_nil_r, Hg1, Hg2, Hg3. cbn. repeat split; lia. }
  unfold bind at 1.
  pose proof (gitService_getCommitContext_silent changes
                {| staged := staged; onProgress := None |} w1) as (Hc1 & Hc2 & Hc3).
  destruct (gitService_getCommitContext _ _ _) as [[[doc|e] w2] l2];
    cbn [snd] in Hc1, Hc2, Hc3.
  2:{ run_M. intros ->. cbn [fst snd].
      rewrite ?app_nil_r, ?deliveries_app, ?shown_errors_app, ?completions_app,
        Hg1, Hg2, Hg3, Hc1, Hc2, Hc3. cbn. repeat split; lia. }
  unfold bind at 1.
  pose proof (callAIForCommitMessage_events doc w2) as (Ha1 & Ha2 & Ha3 & _).
  destruct (callAIForCommitMessage _ _) as [[[msg|e] w3] l3];
    cbn [snd] in Ha1, Ha2, Ha3; run_M; intros ->; cbn [fst snd];
    rewrite ?app_nil_r, ?deliveries_app, ?shown_errors_app, ?completions_app,
      ?length_app, Hg1, Hg2, Hg3, Hc1, Hc2, Hc3, Ha1, Ha2; cbn;
    rewrite ?app_nil_r, ?Nat.add_0_r; repeat split; lia.
Qed.

(** X18.  The programmatic entry point never throws: it always
    resolves to a result, which carries either a message and no error
    or an error and the empty message.  When a step throws, the error
    reported is the message of the [Error] thrown, and "Unknown error
    occurred" when the value thrown is no [Error].  It writes to no
    sink and shows no dialog. *)
Theorem generateCommitMessageForExternal_resolves (workspacePath : string)
    (w : World) :
  exists result,
    fst (fst (generateCommitMessageForExternal workspacePath w)) = Ok result
    /\ (error result = None \/ message result = "")
    /\ (forall e, run_outcome None workspacePath w = GatheringThrew e
                  \/ run_outcome None workspacePath w = ContextThrew e
                  \/ run_outcome None workspacePath w = CompletionThrew e ->
                  result = {| message := ""; error := Some (errorMessage e) |})
    /\ deliveries (snd (generateCommitMessageForExternal workspacePath w)) = []
    /\ shown_errors (snd (generateCommitMessageForExternal workspacePath w)) = [].
Proof.
  eexists. split; [apply generateCommitMessageForExternal_value|].
  pose proof (generateCommitMessageForExternal_events workspacePath w)
    as (Hd & Hs & _).
  split; [by destruct (run_outcome None workspacePath w); cbn; auto|].
  split; [|done].
  intros e [->|[->| ->]]; reflexivity.
Qed.

(** X19.  A programmatic run calls the completion capability at most
    once, and not at all when gathering throws, when no changes are
    found or when building the context throws. *)
Theorem generateCommitMessageForExternal_completions (workspacePath : string)
    (w : World) :
  length (completions (snd (generateCommitMessageForExternal workspacePath w))) <= 1
  /\ match run_outcome None workspacePath w with
     | GatheringThrew _ | NoChanges | ContextThrew _ =>
         completions (snd (generateCommitMessageForExternal workspacePath w)) = []
     | _ => True
     end.
Proof. apply generateCommitMessageForExternal_events. Qed.

(** X20.  A generated message is always a post-processed response: it
    holds no triple backtick and no white space at its ends, and it is
    the message the programmatic entry point returns. *)
Theorem generated_message_is_extracted (workspacePath : string) (w : World)
    (gitContextString generatedMessage : string) :
  run_outcome None workspacePath w = Generated gitContextString generatedMessage ->
  has_fence generatedMessage = false
  /\ trim generatedMessage = generatedMessage
  /\ fst (fst (generateCommitMessageForExternal workspacePath w))
     = Ok {| message := generatedMessage; error := None |}.
Proof.
  intros Hrun.
  assert (exists response, generatedMessage = extractCommitMessage response)
    as [response ->].
  { revert Hrun. unfold run_outcome.
    destruct (gatherGitChanges workspacePath w) as [[[[changes staged]|e] w1] l1];
      [|done].
    destruct (length changes =? 0); [done|].
    destruct (gitService_getCommitContext _ _ _) as [[[doc|e] w2] l2]; [|done].
    pose proof (callAIForCommitMessage_events doc w2) as (_ & _ & _ & Hm).
    destruct (callAIForCommitMessage _ _) as [[[msg|e] w3] l3]; [|done].
    intros [= <- <-]. by apply Hm. }
  split; [apply ExtractFacts.extractCommitMessage_no_fence|].
  split; [apply trim_idem|].
  by rewrite generateCommitMessageForExternal_value, Hrun.
Qed.

(** *** The interactive entry point *)

(** X21.  The task run under the progress bar never throws.  When
    gathering, context building or the completion throws, one error
    dialog is shown and nothing is delivered; the dialog carries the
    message of the error when an [Error] was thrown and "Unknown error
    occurred" otherwise.  When no changes are found nothing is
    delivered and no error is shown.  A sink only ever receives the
    generated message, and at most once; when a message was generated
    and no sink received it, an error dialog is shown. *)
Theorem generateCommitMessageVsCode_task_reports (workspaceRoot : string)
    (w : World) :
  let events := snd (generateCommitMessageVsCode_task workspaceRoot w) in
  let failure e :=
    t "kilocode:commitMessage.generationFailed" (Some (errorMessage e)) in
  fst (fst (generateCommitMessageVsCode_task workspaceRoot w)) = Ok tt
  /\ match run_outcome (Some onDiffProgress) workspaceRoot w with
     | GatheringThrew e | ContextThrew e | CompletionThrew e =>
         deliveries events = [] /\ shown_errors events = [failure e]
     | NoChanges => deliveries events = [] /\ shown_errors events = []
     | Generated _ generatedMessage =>
         deliveries events = [generatedMessage]
         \/ (deliveries events = []
             /\ exists e, shown_errors events = [failure e])
     end.
Proof.
  cbn zeta. unfold run_outcome.
  remember (generateCommitMessageVsCode_task workspaceRoot w) as r eqn:Hr.
  revert Hr.
  unfold generateCommitMessageVsCode_task, callAIForCommitMessageWithProgress.
  unfold try_catch, bind at 1.
  pose proof (gatherGitChanges_silent workspaceRoot w) as (Hg1 & Hg2 & _).
  pose proof (gatherGitChanges_state workspaceRoot w) as Hg.
  destruct (gatherGitChanges workspaceRoot w) as [[[[changes staged]|e] w1] l1];
    cbn [fst snd] in Hg, Hg1, Hg2; subst w1;
    [|run_M; intros ->; cbn [fst snd];
      by rewrite deliveries_app, shown_errors_app, Hg1, Hg2].
  destruct (length changes =? 0);
    [run_M; intros ->; cbn [fst snd];
     by rewrite deliveries_app, shown_errors_app, Hg1, Hg2|].
  unfold bind at 1.
  match goal with
  | |- context [(if ?c then ?a else ?b) (rebound w workspaceRoot)] =>
      assert (exists l, (if c then a else b) (rebound w workspaceRoot)
                        = (Ok tt, rebound w workspaceRoot, l)
                        /\ deliveries l = [] /\ shown_errors l = [])
        as (l0 & Hl0 & Hi1 & Hi2)
        by (destruct c; eexists; by split);
      rewrite Hl0
  end.
  unfold bind at 1.
  pose proof (gitService_getCommitContext_silent changes
                {| staged := staged; onProgress := Some onDiffProgress |}
                (rebound w workspaceRoot)) as (Hc1 & Hc2 & _).
  pose proof (gitService_getCommitContext_state changes
                {| staged := staged; onProgress := Some onDiffProgress |}
                (rebound w workspaceRoot)) as Hc.
  destruct (gitService_getCommitContext _ _ _) as [[[doc|e] w2] l2];
    cbn [fst snd] in Hc, Hc1, Hc2; subst w2;
    [|run_M; intros ->; cbn [fst snd];
      by rewrite !deliveries_app, !shown_errors_app,
        Hg1, Hg2, Hi1, Hi2, Hc1, Hc2].
  unfold bind at 1.
  pose proof (callAIForCommitMessage_events doc (rebound w workspaceRoot))
    as (Ha1 & Ha2 & _ & _).
  pose proof (callAIForCommitMessage_state doc (rebound w workspaceRoot)) as Ha.
  destruct (callAIForCommitMessage _ _) as [[[msg|e] w3] l3];
    cbn [fst snd] in Ha, Ha1, Ha2; subst w3;
    [|run_M; intros ->; cbn [fst snd];
      by rewrite !deliveries_app, !shown_errors_app,
        Hg1, Hg2, Hi1, Hi2, Hc1, Hc2, Ha1, Ha2].
  unfold bind at 1. unfold set_previousGitContext at 1. run_M.
  unfold setCommitMessage, copyToClipboardFallback. run_M.
  destruct (targetRepository (this (rebound w workspaceRoot))); run_M;
    [|destruct (clipboard_writeText msg) as [[]|e]; run_M];
    intros ->; cbn [fst snd];
    rewrite ?app_nil_r, !deliveries_app, !shown_errors_app,
      Hg1, Hg2, Hi1, Hi2, Hc1, Hc2, Ha1, Ha2; cbn.
  all: split; [done|].
  all: first [by left
             |right; split; [done|];
              by exists (JsError "Failed to set commit message")].
Qed.

(** *** The prompts of a run *)

(** When the completion step returns, it has handed exactly one prompt
    to the completion capability: the one it built. *)
Lemma callAIForCommitMessage_completions gitContextString w generatedMessage :
  fst (fst (callAIForCommitMessage gitContextString w)) = Ok generatedMessage ->
  exists prompt,
    fst (fst (buildCommitMessagePrompt gitContextString customSupportPrompts w))
    = Ok prompt
    /\ completions (snd (callAIForCommitMessage gitContextString w)) = [prompt].
Proof.
  unfold callAIForCommitMessage, configToUse, buildCommitMessagePrompt. run_M.
  repeat (case_match; run_M); simplify_eq; cbn; intros Hm; simplify_eq;
    try congruence; eauto.
Qed.

(** The prompts of a programmatic run that generated a message are
    those of its completion step. *)
Lemma generateCommitMessageForExternal_generated workspacePath w
    gitContextString generatedMessage :
  run_outcome None workspacePath w = Generated gitContextString generatedMessage ->
  fst (fst (callAIForCommitMessage gitContextString (rebound w workspacePath)))
  = Ok generatedMessage
  /\ completions (snd (generateCommitMessageForExternal workspacePath w))
     = completions (snd (callAIForCommitMessage gitContextString
                           (rebound w workspacePath))).
Proof.
  unfold run_outcome.
  remember (generateCommitMessageForExternal workspacePath w) as r eqn:Hr.
  revert Hr. unfold generateCommitMessageForExternal.
  unfold try_catch, bind at 1.
  pose proof (gatherGitChanges_silent workspacePath w) as (_ & _ & Hg).
  assert (snd (fst (gatherGitChanges workspacePath w)) = rebound w workspacePath)
    as Hs.
  { rewrite gatherGitChanges_unfold. cbn zeta.
    repeat (case_match; cbn [fst snd]); done. }
  destruct (gatherGitChanges workspacePath w) as [[[[changes staged]|e] w1] l1];
    cbn [fst snd] in Hg, Hs; subst w1; [|done].
  destruct (length changes =? 0); [done|].
  unfold bind at 1.
  pose proof (gitService_getCommitContext_silent changes
                {| staged := staged; onProgress := None |}
                (rebound w workspacePath)) as (_ & _ & Hc).
  pose proof (gitService_getCommitContext_state changes
                {| staged := staged; onProgress := None |}
                (rebound w workspacePath)) as Hcs.
  destruct (gitService_getCommitContext _ _ _) as [[[doc|e] w2] l2];
    cbn [fst snd] in Hc, Hcs; subst w2; [|done].
  unfold bind at 1.
  destruct (callAIForCommitMessage doc (rebound w workspacePath))
    as [[[msg|e] w3] l3] eqn:Hcall; [|done].
  run_M. intros -> [= <- <-]. rewrite Hcall. cbn [fst snd].
  split; [done|].
  rewrite !completions_app, Hg, Hc. cbn. by rewrite app_nil_r.
Qed.

(** *** The command for external callers *)

(** The message of the [ZodError] raised for a rejected value. *)
Variable zodError : JsValue -> string.

(** X22.  The command for external callers accepts exactly a first
    argument that is an array of one non-empty string.  For any other
    argument (no argument, an empty path, more than one element, a
    value that is no string) it throws before the provider is touched:
    no service is constructed and nothing is gathered.  For an
    accepted argument it is the programmatic entry point run on that
    path. *)
Theorem generateCommitMessageForExternal_command_validates (args : list JsValue)
    (w : World) :
  (forall workspacePath,
      WorkspacePathSchema_parse zodError (nth 0 args JsOther) = Ok workspacePath
      <-> nth 0 args JsOther = JsArray [JsString workspacePath]
          /\ workspacePath <> "")
  /\ (forall workspacePath,
         nth 0 args JsOther = JsArray [JsString workspacePath] ->
         workspacePath <> "" ->
         fst (generateCommitMessageForExternal_command zodError args w)
         = fst (generateCommitMessageForExternal workspacePath w))
  /\ ((forall workspacePath,
          nth 0 args JsOther = JsArray [JsString workspacePath] ->
          workspacePath = "") ->
      generateCommitMessageForExternal_command zodError args w
      = (Throw (zodError (nth 0 args JsOther)), w, [])).
Proof.
  assert (forall workspacePath,
             WorkspacePathSchema_parse zodError (nth 0 args JsOther) = Ok workspacePath
             <-> nth 0 args JsOther = JsArray [JsString workspacePath]
                 /\ workspacePath <> "") as Hparse.
  { intros workspacePath. unfold WorkspacePathSchema_parse.
    destruct (nth 0 args JsOther) as [s|[|[s|items'|] [|second rest]]|];
      try (split; [discriminate|intros [[=] _]]).
    destruct s as [|c s']; cbn; split.
    - discriminate.
    - intros [[= <-] Hne]. done.
    - intros [= <-]. done.
    - intros [[= <-] _]. done. }
  split; [exact Hparse|]. split.
  - intros workspacePath Harg Hne.
    unfold generateCommitMessageForExternal_command, bind, liftR.
    rewrite (proj2 (Hparse workspacePath) (conj Harg Hne)).
    by destruct (generateCommitMessageForExternal workspacePath w) as [[??]?].
  - intros Hbad.
    unfold generateCommitMessageForExternal_command, bind, liftR.
    assert (WorkspacePathSchema_parse zodError (nth 0 args JsOther)
            = Throw (zodError (nth 0 args JsOther))) as ->; [|done].
    clear Hparse. unfold WorkspacePathSchema_parse.
    repeat case_match; simplify_eq; try done.
    match goal with
    | Hlen : (1 <=? String.length ?p) = true |- _ =>
        rewrite (Hbad p eq_refl) in Hlen; discriminate Hlen
    end.
Qed.

End WithHost.

Lemma run_after_dispose_witness :
  currentWorkspaceRoot (this after_one_run) = Some "/repo"
  /\ @generateCommitMessageForExternal two_files
       (@GitExtensionService_methods two_files) plain_host "/repo"
       (snd (fst (@dispose two_files after_one_run)))
     = (Ok {| message := ""; error := Some "Failed to initialize Git service" |},
        snd (fst (@dispose two_files after_one_run)), []).
Proof.
  split; [reflexivity|].
  refine (proj1 (@run_after_dispose two_files
                   (@GitExtensionService_methods two_files) plain_host
                   after_one_run "/repo" _)).
  reflexivity.
Defined.

(** With no git extension at hand there is no target repository, and
    the interactive entry point stops at once. *)
Lemma generateCommitMessageVsCode_no_repository_witness :
  fst (fst (@determineTargetRepository plain_host None initial)) = Ok None
  /\ fst (fst (@generateCommitMessageVsCode two_files
                 (@GitExtensionService_methods two_files) plain_host
                 None initial))
     = Throw "Could not determine Git repository".
Proof.
  split; [reflexivity|].
  refine (proj1 (@generateCommitMessageVsCode_no_repository two_files
                   (@GitExtensionService_methods two_files) plain_host
                   None initial None _ _)); reflexivity.
Defined.

(** A first run in a repository with two changed files returns the
    completion as it came back, since it is already clean. *)
Lemma generated_message_is_extracted_witness :
  (exists gitContextString,
     @run_outcome two_files (@GitExtensionService_methods two_files) plain_host
       None "/repo" initial
     = Generated gitContextString "feat: add new feature")
  /\ fst (fst (@generateCommitMessageForExternal two_files
                 (@GitExtensionService_methods two_files) plain_host
                 "/repo" initial))
     = Ok {| message := "feat: add new feature"; error := None |}.
Proof.
  split; [eexists; vm_compute; reflexivity|].
  refine (proj2 (proj2 (@generated_message_is_extracted two_files
                          (@GitExtensionService_methods two_files) plain_host
                          "/repo" initial _ "feat: add new feature" _))).
  vm_compute. reflexivity.
Defined.

(** *** Two runs in a row *)

(** X23.  Two programmatic runs in a row for the same path, between
    which the repository may have changed (the second run has a git
    host of its own).  When the first run generated a message, a
    second run that generates one hands exactly one prompt to the
    completion capability.  If its document is the document of the
    first run, that prompt is made from the template that demands a
    different message and embeds the first message; if its document
    is another one, the prompt is made from the unmodified templates. *)
Theorem regeneration_prompt (git1 git2 : GitHost)
    (service1 service2 : GitServiceMethods) (host : ProviderHost)
    (workspacePath : string) (w : World)
    (firstDocument firstMessage secondDocument secondMessage : string) :
  @run_outcome git1 service1 host None workspacePath w
  = Generated firstDocument firstMessage ->
  let w1 := snd (fst (@generateCommitMessageForExternal git1 service1 host
                        workspacePath w)) in
  @run_outcome git2 service2 host None workspacePath w1
  = Generated secondDocument secondMessage ->
  exists prompt,
    completions (snd (@generateCommitMessageForExternal git2 service2 host
                        workspacePath w1))
    = [prompt]
    /\ @createCommitPrompt host secondDocument
         (if bool_decide (secondDocument = firstDocument)
          then <[COMMIT_MESSAGE :=
                   differentMessagePrefix firstMessage
                   +:+ @supportPrompt_get host (@customSupportPrompts host)
                         COMMIT_MESSAGE
                   +:+ finalReminder firstMessage]> (@customSupportPrompts host)
          else @customSupportPrompts host)
       = Ok prompt.
Proof.
  intros Hfirst w1 Hsecond.
  destruct (@generateCommitMessageForExternal_generated git2 service2 host
              _ _ _ _ Hsecond) as (Hcall & ->).
  destruct (@callAIForCommitMessage_completions host _ _ _ Hcall)
    as (prompt & Hb & ->).
  exists prompt. split; [done|].
  rewrite <- Hb, (@buildCommitMessagePrompt_value host).
  unfold shouldGenerateDifferentMessage.
  destruct (rebound_previous w1 workspacePath) as (-> & ->).
  subst w1.
  rewrite (@generateCommitMessageForExternal_state git1 service1 host), Hfirst.
  cbn [with_previous this previousGitContext previousCommitMessage interpolate].
  rewrite (bool_decide_eq_true_2 (Some firstMessage <> None)) by done.
  rewrite andb_true_r.
  case_bool_decide as Hd; case_bool_decide as Hd'; simplify_eq; done.
Qed.

(** After a run on two staged files a third file is staged: the
    document of the second run is another one, and its prompt does
    not ask for a different message. *)
Lemma regeneration_prompt_witness :
  let first := @generateCommitMessageForExternal two_files
                 (@GitExtensionService_methods two_files) plain_host
                 "/repo" initial in
  fst (fst first) = Ok {| message := "feat: add new feature"; error := None |}
  /\ exists prompt,
       completions
         (snd (@generateCommitMessageForExternal three_files
                 (@GitExtensionService_methods three_files) plain_host
                 "/repo" (snd (fst first))))
       = [prompt]
       /\ includes "The previous message was: " prompt = false.
Proof.
  split; [reflexivity|].
  pose (document (git : GitHost) (w : World) :=
          match @run_outcome git (@GitExtensionService_methods git)
                  plain_host None "/repo" w with
          | Generated gitContextString _ => gitContextString
          | _ => ""
          end).
  pose (w1 := snd (fst (@generateCommitMessageForExternal two_files
                          (@GitExtensionService_methods two_files) plain_host
                          "/repo" initial))).
  destruct (@regeneration_prompt two_files three_files
              (@GitExtensionService_methods two_files)
              (@GitExtensionService_methods three_files) plain_host
              "/repo" initial (document two_files initial) "feat: add new feature"
              (document three_files w1) "feat: add new feature")
    as (prompt & Hprompt & Hbuilt).
  - vm_compute. reflexivity.
  - vm_compute. reflexivity.
  - exists prompt. split; [exact Hprompt|].
    vm_compute in Hbuilt. injection Hbuilt as <-. vm_compute. reflexivity.
Defined.

(** A completion that rejects with a value that is no [Error] is
    reported as an unknown error, by both entry points. *)
Example unknown_error_reported :
  fst (fst (@generateCommitMessageForExternal two_files
              (@GitExtensionService_methods two_files) rejecting_host
              "/repo" initial))
  = Ok {| message := ""; error := Some "Unknown error occurred" |}
  /\ shown_errors
       (snd (@generateCommitMessageVsCode_task two_files
               (@GitExtensionService_methods two_files) rejecting_host
               "/repo" initial))
     = [@t rejecting_host "kilocode:commitMessage.generationFailed"
          (Some "Unknown error occurred")].
Proof. split; vm_compute; reflexivity. Qed.

End ProviderMore.
